(** * FraudShield AI: the verification state machine and its rendering contract

    A shallow embedding of the behavioural part of the dashboard:
    [App.tsx] (the component state, [handleVerify], [handleReport] and the
    three-way result pane), [ResultsCard] (score colouring and the progress
    bar) and [VerificationCard] (the submit button and its [disabled]
    attribute).

    JavaScript strings are sequences of UTF-16 code units, so they are
    modelled as [list N]; [trim] and [encodeURIComponent] follow
    ECMAScript.  The risk score is an integer (the source obtains it with
    [Math.floor]) and is modelled in [Z]. *)

From Stdlib Require Import List ZArith NArith QArith Qround Qpower Bool Lia Lqa.
From Stdlib Require Import Ascii String DecimalString DecimalZ.
Import ListNotations.

Set Implicit Arguments.

(* ================================================================== *)
(** ** JavaScript strings *)

Module JS.

Definition jsstring := list N.

(** A source literal, all of whose characters are ASCII. *)
Definition lit (s : string) : jsstring :=
  map N_of_ascii (list_ascii_of_string s).

Definition to_ascii (s : jsstring) : string :=
  string_of_list_ascii (map ascii_of_N s).

(** [!s] on a string: only the empty string is falsy. *)
Definition truthy (s : jsstring) : bool :=
  match s with [] => false | _ :: _ => true end.

(** ECMAScript WhiteSpace and LineTerminator code points, the characters
    [String.prototype.trim] strips. *)
Definition isWhiteSpace (c : N) : bool :=
  ((c =? 0x09) || (c =? 0x0A) || (c =? 0x0B) || (c =? 0x0C) || (c =? 0x0D)
   || (c =? 0x20) || (c =? 0xA0) || (c =? 0x1680)
   || ((0x2000 <=? c) && (c <=? 0x200A))
   || (c =? 0x2028) || (c =? 0x2029) || (c =? 0x202F) || (c =? 0x205F)
   || (c =? 0x3000) || (c =? 0xFEFF))%N.

Fixpoint trimStart (s : jsstring) : jsstring :=
  match s with
  | [] => []
  | c :: r => if isWhiteSpace c then trimStart r else s
  end.

Definition trimEnd (s : jsstring) : jsstring := rev (trimStart (rev s)).

Definition trim (s : jsstring) : jsstring := trimEnd (trimStart s).

(** [Array.prototype.join] on an array of strings. *)
Fixpoint join (sep : jsstring) (xs : list jsstring) : jsstring :=
  match xs with
  | [] => []
  | [x] => x
  | x :: rest => x ++ sep ++ join sep rest
  end.

(** [String(z)] for an integral number.  (ECMAScript prints integers below
    10^21 in magnitude as plain decimals; the scores of this program are
    far inside that range.) *)
Definition numberToString (z : Z) : jsstring :=
  lit (NilZero.string_of_int (Z.to_int z)).

(** Substring test, used to say that a text is embedded in another. *)
Fixpoint prefixb (p s : jsstring) : bool :=
  match p, s with
  | [], _ => true
  | _ :: _, [] => false
  | a :: p', b :: s' => (a =? b)%N && prefixb p' s'
  end.

Fixpoint includes (s p : jsstring) : bool :=
  prefixb p s ||
  match s with
  | [] => false
  | _ :: s' => includes s' p
  end.

(** *** encodeURIComponent *)

(** The unreserved set of [encodeURIComponent]: ASCII letters, digits and
    [- _ . ! ~ * ' ( )]. *)
Definition isUnreserved (c : N) : bool :=
  (((0x41 <=? c) && (c <=? 0x5A)) || ((0x61 <=? c) && (c <=? 0x7A))
   || ((0x30 <=? c) && (c <=? 0x39))
   || (c =? 0x2D) || (c =? 0x5F) || (c =? 0x2E) || (c =? 0x21)
   || (c =? 0x7E) || (c =? 0x2A) || (c =? 0x27) || (c =? 0x28)
   || (c =? 0x29))%N.

Definition isLeadSurrogate (c : N) : bool := ((0xD800 <=? c) && (c <=? 0xDBFF))%N.
Definition isTrailSurrogate (c : N) : bool := ((0xDC00 <=? c) && (c <=? 0xDFFF))%N.

Definition hexDigit (d : N) : N :=
  (if d <? 10 then 0x30 + d else 0x41 + (d - 10))%N.

(** One octet as [%XX], upper-case hexadecimal. *)
Definition pctOctet (b : N) : jsstring :=
  [0x25%N; hexDigit (N.shiftr b 4); hexDigit (N.land b 0xF)].

(** The UTF-8 octets of a code point. *)
Definition utf8 (cp : N) : list N :=
  (if cp <? 0x80 then [cp]
   else if cp <? 0x800 then
     [N.lor 0xC0 (N.shiftr cp 6); N.lor 0x80 (N.land cp 0x3F)]
   else if cp <? 0x10000 then
     [N.lor 0xE0 (N.shiftr cp 12);
      N.lor 0x80 (N.land (N.shiftr cp 6) 0x3F);
      N.lor 0x80 (N.land cp 0x3F)]
   else
     [N.lor 0xF0 (N.shiftr cp 18);
      N.lor 0x80 (N.land (N.shiftr cp 12) 0x3F);
      N.lor 0x80 (N.land (N.shiftr cp 6) 0x3F);
      N.lor 0x80 (N.land cp 0x3F)])%N.

Definition pctCodePoint (cp : N) : jsstring :=
  flat_map pctOctet (utf8 cp).

(** ECMAScript [Encode] with the unreserved set above.  [None] stands for
    the [URIError] thrown at an unpaired surrogate. *)
Fixpoint encodeURIComponent (s : jsstring) : option jsstring :=
  match s with
  | [] => Some []
  | c :: r =>
      if isUnreserved c then option_map (cons c) (encodeURIComponent r)
      else if isTrailSurrogate c then None
      else if isLeadSurrogate c then
        match r with
        | [] => None
        | d :: r' =>
            if isTrailSurrogate d then
              option_map
                (app (pctCodePoint ((c - 0xD800) * 0x400 + (d - 0xDC00) + 0x10000)%N))
                (encodeURIComponent r')
            else None
        end
      else option_map (app (pctCodePoint c)) (encodeURIComponent r)
  end.

(** A string without unpaired surrogates. *)
Fixpoint wellFormed (s : jsstring) : bool :=
  match s with
  | [] => true
  | c :: r =>
      if isTrailSurrogate c then false
      else if isLeadSurrogate c then
        match r with
        | [] => false
        | d :: r' => isTrailSurrogate d && wellFormed r'
        end
      else wellFormed r
  end.

(** A code unit is a 16-bit value. *)
Definition isCodeUnit (c : N) : bool := (c <? 0x10000)%N.

Definition validString (s : jsstring) : bool := forallb isCodeUnit s.

(** The characters a percent-encoded text is made of. *)
Definition isUriSafe (c : N) : bool := isUnreserved c || (c =? 0x25)%N.

End JS.

Import JS.

(* ================================================================== *)
(** ** Data model *)

(** The verification category ([activeTab] in [App.tsx]). *)
Inductive Tab := advisor | announcement | social | anomaly.

(** The tab identifier as it is interpolated into template literals. *)
Definition tabId (t : Tab) : jsstring :=
  match t with
  | advisor => lit "advisor"
  | announcement => lit "announcement"
  | social => lit "social"
  | anomaly => lit "anomaly"
  end.

Inductive RiskLevel := Low | Medium | High.

Record VerificationResult := mkResult {
  risk_score : Z;
  risk_level : RiskLevel;
  reasons : list jsstring;
  ai_explanation : jsstring
}.

(* ================================================================== *)
(** ** ResultsCard: score colouring and progress bar *)

Module ResultsCard.

Definition getScoreColor (score : Z) : jsstring :=
  if (score <? 40)%Z then lit "text-red-600"
  else if (score <? 70)%Z then lit "text-yellow-600"
  else lit "text-green-600".

(** The inline [style] of the progress-bar fill. *)
Record BarStyle := mkBar { width : jsstring; backgroundColor : jsstring }.

Definition barStyle (results : VerificationResult) : BarStyle :=
  {| width := numberToString (risk_score results) ++ lit "%";
     backgroundColor :=
       if (risk_score results <? 40)%Z then lit "#DC2626"
       else if (risk_score results <? 70)%Z then lit "#D97706"
       else lit "#16A34A" |}.

(** Reading a CSS percentage back: the number in front of the [%] sign. *)
Definition percentValue (w : jsstring) : option Z :=
  match rev w with
  | c :: r =>
      if (c =? 0x25)%N
      then option_map Z.of_int (NilZero.int_of_string (to_ascii (rev r)))
      else None
  | [] => None
  end.

End ResultsCard.

(** *** Scores as JavaScript numbers

    The parameter of [getScoreColor] has type [number]: besides the
    integers it may be a fraction, an infinity or NaN.  A finite double is
    a rational; [<] is false as soon as one side is NaN. *)

Inductive number :=
| Finite (q : Q)
| PosInfinity
| NegInfinity
| NaN.

Definition ofInt (z : Z) : number := Finite (inject_Z z).

(** [a < b] on numbers. *)
Definition numLt (a b : number) : bool :=
  match a, b with
  | NaN, _ => false
  | _, NaN => false
  | Finite x, Finite y => negb (Qle_bool y x)
  | Finite _, PosInfinity => true
  | Finite _, NegInfinity => false
  | PosInfinity, _ => false
  | NegInfinity, NegInfinity => false
  | NegInfinity, _ => true
  end.

Module NumericScore.

Definition getScoreColor (score : number) : jsstring :=
  if numLt score (ofInt 40) then lit "text-red-600"
  else if numLt score (ofInt 70) then lit "text-yellow-600"
  else lit "text-green-600".

(** The [backgroundColor] of the progress-bar fill. *)
Definition barFill (score : number) : jsstring :=
  if numLt score (ofInt 40) then lit "#DC2626"
  else if numLt score (ofInt 70) then lit "#D97706"
  else lit "#16A34A".

End NumericScore.

(* ================================================================== *)
(** ** Math.random *)

(** [Math.random()] is modelled by a source of draws consumed in
    evaluation order.  A draw is a double in [0, 1); every finite double is
    a rational, so draws are held in [Q] and [unitDouble] below says which
    rationals are such doubles.  Comparisons of doubles are exact; a
    product is rounded to the nearest double ([roundDouble]). *)
Definition RandSrc := nat -> Q.

Definition Rand (A : Type) : Type := RandSrc -> A * RandSrc.

Definition ret {A} (a : A) : Rand A := fun g => (a, g).

Definition bind {A B} (m : Rand A) (k : A -> Rand B) : Rand B :=
  fun g => let (a, g') := m g in k a g'.

Notation "x <- m ;; k" := (bind m (fun x => k))
  (at level 61, m at next level, right associativity).

Definition Math_random : Rand Q :=
  fun g => (g 0%nat, fun n => g (S n)).

Definition unitDraws (g : RandSrc) : Prop :=
  forall n, 0 <= g n /\ g n < 1.

(** [a > b] on numbers. *)
Definition gtb (a b : Q) : bool := negb (Qle_bool a b).

(** *** Binary64 arithmetic

    The result of an IEEE 754 operation is the exact result rounded to the
    nearest double, ties to the even significand.  A double has 53
    significant bits; the unit in the last place of a positive [x] is
    2^(e-52) with e the exponent of [x], and never below 2^(-1074) (the
    subnormal range).  Magnitudes stay far below 2^1024 here, so overflow
    does not arise. *)

(** The exponent of a positive [x]: the [e] with 2^e <= x < 2^(e+1). *)
Definition floorLog2 (x : Q) : Z :=
  if Qle_bool 1 x then Z.log2 (Qfloor x)
  else (- Z.log2_up (Qceiling (/ x)))%Z.

(** The nearest integer, ties to even. *)
Definition roundHalfEven (y : Q) : Z :=
  let k := Qfloor y in
  match Qcompare (y - inject_Z k) (1 # 2) with
  | Lt => k
  | Gt => (k + 1)%Z
  | Eq => if Z.even k then k else (k + 1)%Z
  end.

Definition ulpExponent (x : Q) : Z :=
  (Z.max (floorLog2 x) (-1022) - 52)%Z.

Definition roundPositive (x : Q) : Q :=
  inject_Z (roundHalfEven (x * 2 ^ (- ulpExponent x))) * 2 ^ ulpExponent x.

(** The double nearest to [x]. *)
Definition roundDouble (x : Q) : Q :=
  match Qcompare x 0 with
  | Eq => 0
  | Gt => roundPositive x
  | Lt => - roundPositive (- x)
  end.

(** [a * b] on doubles. *)
Definition mulDouble (a b : Q) : Q := roundDouble (a * b).

(** The doubles in [0, 1): m * 2^(-k) with a significand m below 2^53 and
    an exponent no smaller than -1074. *)
Definition unitDouble (r : Q) : Prop :=
  exists m k : Z,
    (0 <= m < 2 ^ 53)%Z /\ (0 <= k <= 1074)%Z
    /\ r == inject_Z m * 2 ^ (- k) /\ r < 1.

Definition doubleDraws (g : RandSrc) : Prop :=
  forall n, unitDouble (g n).

(* ================================================================== *)
(** ** App: component state and handlers *)

Record AppState := mkApp {
  activeTab : Tab;
  loading : bool;
  results : option VerificationResult;
  inputValue : jsstring
}.

Definition setActiveTab (t : Tab) (s : AppState) : AppState :=
  mkApp t (loading s) (results s) (inputValue s).
Definition setLoading (b : bool) (s : AppState) : AppState :=
  mkApp (activeTab s) b (results s) (inputValue s).
Definition setResults (r : option VerificationResult) (s : AppState) : AppState :=
  mkApp (activeTab s) (loading s) r (inputValue s).
Definition setInputValue (v : jsstring) (s : AppState) : AppState :=
  mkApp (activeTab s) (loading s) (results s) v.

(** A suspended [handleVerify] call: the values of [activeTab] and
    [inputValue] its closure captured when it was invoked. *)
Definition Closure : Type := Tab * jsstring.

(** The component together with what surrounds it: the awaited calls not
    yet settled (oldest first), the console, and the URLs handed to
    [window.open]. *)
Record World := mkWorld {
  comp : AppState;
  inflight : list Closure;
  console : list (jsstring * jsstring);
  opened : list jsstring
}.

Definition withComp (f : AppState -> AppState) (w : World) : World :=
  mkWorld (f (comp w)) (inflight w) (console w) (opened w).

Definition init : World :=
  mkWorld (mkApp advisor false None []) [] [] [].

Definition LF : jsstring := [0x0A%N].
Definition DQUOTE : jsstring := [0x22%N].

(** The object literal [mockResult] of [handleVerify]; the draws are taken
    in the order the literal evaluates its fields. *)
Definition mockResult (c : Closure) : Rand VerificationResult :=
  let (tab, input) := c in
  r1 <- Math_random ;;
  lvl <- (r2 <- Math_random ;;
          if gtb r2 (6 # 10) then ret High
          else r3 <- Math_random ;;
               ret (if gtb r3 (3 # 10) then Medium else Low)) ;;
  r4 <- Math_random ;;
  ret {| risk_score := Qfloor (mulDouble r1 100);
         risk_level := lvl;
         reasons :=
           [ match tab with
             | advisor => lit "Advisor not found in SEBI registry"
             | announcement => lit "No matching official filing found"
             | social => lit "Contains suspicious keywords"
             | anomaly => lit "Unusual volume spike detected"
             end;
             lit "AI analysis flagged potential fraud indicators" ];
         ai_explanation :=
           lit "Based on our analysis of " ++ DQUOTE ++ input ++ DQUOTE
           ++ lit ", this appears to be "
           ++ (if gtb r4 (5 # 10) then lit "suspicious" else lit "potentially legitimate")
           ++ lit " content. Our AI detected several red flags including unregistered entities and promises of guaranteed returns." |}.

(** [handleVerify] up to its [await]: the guard, the two state updates and
    the start of the awaited call. *)
Definition handleVerify (w : World) : World :=
  if negb (truthy (trim (inputValue (comp w)))) then w
  else
    mkWorld (setResults None (setLoading true (comp w)))
            (inflight w ++ [(activeTab (comp w), inputValue (comp w))])
            (console w) (opened w).

(** How the awaited call of the [try] block ends. *)
Inductive Outcome :=
| Fulfilled (g : RandSrc)
| Rejected (error : jsstring).

(** [handleVerify] after its [await]: [try] / [catch] / [finally]. *)
Definition handleVerify_resume (c : Closure) (o : Outcome) (w : World) : World :=
  let w' :=
    match o with
    | Fulfilled g => withComp (setResults (Some (fst (mockResult c g)))) w
    | Rejected e =>
        mkWorld (comp w) (inflight w)
                (console w ++ [(lit "Verification failed:", e)]) (opened w)
    end in
  withComp (setLoading false) w'.

Definition undefinedOr {A} (f : A -> jsstring) (o : option A) : jsstring :=
  match o with
  | Some a => f a
  | None => lit "undefined"
  end.


Definition reportSubject (s : AppState) : jsstring :=
  lit "Fraud Report - " ++ tabId (activeTab s) ++ lit " Verification".

Definition reportBody (s : AppState) : jsstring :=
  lit "Dear SEBI," ++ LF ++ LF
  ++ lit "I would like to report a potential fraud case:" ++ LF ++ LF
  ++ lit "Type: " ++ tabId (activeTab s) ++ LF
  ++ lit "Content: " ++ inputValue s ++ LF
  ++ lit "Risk Score: "
  ++ undefinedOr (fun r => numberToString (risk_score r)) (results s) ++ LF
  ++ lit "Reasons: "
  ++ undefinedOr (fun r => join (lit ", ") (reasons r)) (results s) ++ LF ++ LF
  ++ lit "AI Analysis: " ++ undefinedOr ai_explanation (results s) ++ LF ++ LF
  ++ lit "Please investigate this matter." ++ LF ++ LF
  ++ lit "Thank you.".

(** The URL [handleReport] builds; [None] when [encodeURIComponent]
    throws. *)
Definition reportUrl (s : AppState) : option jsstring :=
  match encodeURIComponent (reportSubject s), encodeURIComponent (reportBody s) with
  | Some es, Some eb =>
      Some (lit "mailto:complaints@sebi.gov.in?subject=" ++ es ++ lit "&body=" ++ eb)
  | _, _ => None
  end.

Definition handleReport (w : World) : World :=
  match reportUrl (comp w) with
  | Some url => mkWorld (comp w) (inflight w) (console w) (opened w ++ [url])
  | None => w
  end.

(** *** What is rendered *)

(** The [disabled] attribute of the submit button in [VerificationCard]. *)
Definition verifyDisabled (s : AppState) : bool :=
  negb (truthy (trim (inputValue s))) || loading s.

(** The three presentations of the results pane. *)
Inductive Pane :=
| LoadingSpinner
| ResultsCardPane (r : VerificationResult)
| ReadyToAnalyze.

Definition resultsPane (s : AppState) : Pane :=
  if loading s then LoadingSpinner
  else match results s with
       | Some r => ResultsCardPane r
       | None => ReadyToAnalyze
       end.

(** *** Events *)

Inductive Event :=
| SelectTab (t : Tab)
| ChangeInput (v : jsstring)
| ClickVerify
| ClickReport
| Settle (o : Outcome).

Definition step (w : World) (e : Event) : World :=
  match e with
  | SelectTab t => withComp (setActiveTab t) w
  | ChangeInput v => withComp (setInputValue v) w
  | ClickVerify => if verifyDisabled (comp w) then w else handleVerify w
  | ClickReport =>
      match resultsPane (comp w) with
      | ResultsCardPane _ => handleReport w
      | _ => w
      end
  | Settle o =>
      match inflight w with
      | [] => w
      | c :: rest =>
          handleVerify_resume c o
            (mkWorld (comp w) rest (console w) (opened w))
      end
  end.

Definition run (w : World) (evs : list Event) : World := fold_left step evs w.

(* ================================================================== *)
(** ** Notions used to state the properties *)

(** The cells of the score partition of [ResultsCard], by severity. *)
Inductive Band := RedBand | AmberBand | GreenBand.

Definition scoreBand (score : Z) : Band :=
  if (score <? 40)%Z then RedBand
  else if (score <? 70)%Z then AmberBand
  else GreenBand.

Definition bandTextClass (b : Band) : jsstring :=
  match b with
  | RedBand => lit "text-red-600"
  | AmberBand => lit "text-yellow-600"
  | GreenBand => lit "text-green-600"
  end.

Definition bandFill (b : Band) : jsstring :=
  match b with
  | RedBand => lit "#DC2626"
  | AmberBand => lit "#D97706"
  | GreenBand => lit "#16A34A"
  end.

(** Red is the high-severity band, green the low-severity one. *)
Definition severity (b : Band) : nat :=
  match b with
  | RedBand => 2
  | AmberBand => 1
  | GreenBand => 0
  end.

Definition levelRank (l : RiskLevel) : nat :=
  match l with
  | Low => 0
  | Medium => 1
  | High => 2
  end.

(** The results the program can produce: what [handleVerify] stores for
    some captured category and text and some draws of [Math.random]. *)
Definition produced (r : VerificationResult) : Prop :=
  exists c g, doubleDraws g /\ r = fst (mockResult c g).


(** The same invariant with the cells ordered the other way round (a high
    score taken as the severe end). *)
Definition levelFollowsScoreUpward : Prop :=
  forall r1 r2, produced r1 -> produced r2 ->
    (severity (scoreBand (risk_score r1)) < severity (scoreBand (risk_score r2)))%nat ->
    (levelRank (risk_level r2) <= levelRank (risk_level r1))%nat.

(** A double close to (score + 1/2) / 100: a multiple of 2^(-53). *)
Definition scoreDraw (score : Z) : Q :=
  ((score * 2 ^ 53 + 2 ^ 52) / 100)%Z # 9007199254740992.

(** Draws, all of them doubles, that make [mockResult] yield a chosen score
    and level: the first draw fixes the score, the next two the level. *)
Definition drawsFor (score : Z) (lvl : RiskLevel) : RandSrc :=
  fun n =>
    match n with
    | O => scoreDraw score
    | S O => match lvl with High => 3 # 4 | _ => 0 end
    | S (S O) => match lvl with Medium => 3 # 4 | _ => 0 end
    | _ => 0
    end.

(** The states the component can be in: those some sequence of events
    leads to from the initial render. *)
Definition reachable (w : World) : Prop :=
  exists evs, w = run init evs.

(** Between two renders at most one request is awaited, and while it is
    awaited the stored result is absent. *)
Definition singleFlight (w : World) : Prop :=
  (inflight w = [] /\ loading (comp w) = false)
  \/ (exists c, inflight w = [c] /\ loading (comp w) = true
                /\ results (comp w) = None).

(** The template of the complaint body, spelled out for a present result. *)
Definition draftBody (category : Tab) (text : jsstring)
    (r : VerificationResult) : jsstring :=
  lit "Dear SEBI," ++ LF ++ LF
  ++ lit "I would like to report a potential fraud case:" ++ LF ++ LF
  ++ lit "Type: " ++ tabId category ++ LF
  ++ lit "Content: " ++ text ++ LF
  ++ lit "Risk Score: " ++ numberToString (risk_score r) ++ LF
  ++ lit "Reasons: " ++ join (lit ", ") (reasons r) ++ LF ++ LF
  ++ lit "AI Analysis: " ++ ai_explanation r ++ LF ++ LF
  ++ lit "Please investigate this matter." ++ LF ++ LF
  ++ lit "Thank you.".

Definition mailtoPrefix : jsstring :=
  lit "mailto:complaints@sebi.gov.in?subject=".

(** The complaint composer as the specification words it: the body embeds
    the reasons joined by newlines. *)
Definition draftEmbedsNewlineJoinedReasons : Prop :=
  forall s r, results s = Some r ->
    includes (reportBody s) (join LF (reasons r)) = true.

(** A session that ends with a displayed result: category "social", the
    text of the specification's example, and draws giving a score of 90. *)
Definition reportWorld : World :=
  run init [SelectTab social;
            ChangeInput (lit "Buy XYZ for 300% returns");
            ClickVerify;
            Settle (Fulfilled (drawsFor 90 High))].

(** A request in flight. *)
Definition pendingWorld : World :=
  run init [ChangeInput (lit "John Smith"); ClickVerify].

(** A settled state holding an earlier result. *)
Definition settledWorld : World :=
  mkWorld (mkApp social false
             (Some (mkResult 12 Low [lit "stale"] (lit "old explanation")))
             (lit "Buy XYZ for 300% returns"))
          [] [] [].

(** A state whose text is white space only. *)
Definition blankWorld : World :=
  mkWorld (mkApp anomaly false
             (Some (mkResult 64 Medium [lit "kept"] (lit "kept too")))
             [0x20; 0x09; 0xA0; 0x0A]%N)
          [] [] [].

(* ================================================================== *)
(** ** The remaining components *)

(** The lucide icons the components choose between. *)
Inductive Icon :=
| AlertTriangle | CheckCircle | Info | Building | TrendingUp | MessageCircle
| Shield | Users.

(** [===] on strings. *)
Fixpoint strictEq (a b : jsstring) : bool :=
  match a, b with
  | [], [] => true
  | x :: a', y :: b' => (x =? y)%N && strictEq a' b'
  | _, _ => false
  end.

(** The text of a risk level, as [results.risk_level] holds it. *)
Definition levelLabel (l : RiskLevel) : jsstring :=
  match l with
  | Low => lit "Low"
  | Medium => lit "Medium"
  | High => lit "High"
  end.

(** *** ResultsCard: the header of the card *)

Module RiskHeader.

(** The [switch] statements take any string and have a [default] arm. *)
Definition getRiskColor (level : jsstring) : jsstring :=
  if strictEq level (lit "High") then lit "text-red-600 bg-red-50 border-red-200"
  else if strictEq level (lit "Medium") then lit "text-yellow-600 bg-yellow-50 border-yellow-200"
  else if strictEq level (lit "Low") then lit "text-green-600 bg-green-50 border-green-200"
  else lit "text-gray-600 bg-gray-50 border-gray-200".

Definition getRiskIcon (level : jsstring) : Icon :=
  if strictEq level (lit "High") then AlertTriangle
  else if strictEq level (lit "Medium") then AlertTriangle
  else if strictEq level (lit "Low") then CheckCircle
  else Info.



End RiskHeader.

(** *** App: the list of tabs *)

Record TabEntry := mkTab {
  id : Tab;
  label : jsstring;
  icon : Icon;
  description : jsstring
}.

Definition tabs : list TabEntry :=
  [ mkTab advisor (lit "Advisor Check") Building (lit "Verify SEBI registered advisors");
    mkTab announcement (lit "Corporate News") TrendingUp (lit "Validate company announcements");
    mkTab social (lit "Social Media") MessageCircle (lit "Detect social media fraud");
    mkTab anomaly (lit "Market Anomaly") AlertTriangle (lit "Identify pump & dump schemes") ].

(** [activeTab === tab.id], a comparison of the two identifier strings. *)
Definition isActive (s : AppState) (tab : TabEntry) : bool :=
  strictEq (tabId (activeTab s)) (tabId (id tab)).

Definition tabButtonClass (s : AppState) (tab : TabEntry) : jsstring :=
  lit "w-full text-left p-4 rounded-lg transition-all duration-200 "
  ++ (if isActive s tab
      then lit "bg-blue-50 border-2 border-blue-200 text-blue-800"
      else lit "bg-gray-50 border-2 border-transparent text-gray-700 hover:bg-gray-100").

(** The [onClick] of a tab button. *)
Definition clickTab (tab : TabEntry) : Event := SelectTab (id tab).

(** *** VerificationCard: icon and field label *)

Module VerificationCard.

Definition getIcon (activeTab : Tab) : Icon :=
  match activeTab with
  | advisor => Building
  | announcement => TrendingUp
  | social => MessageCircle
  | anomaly => AlertTriangle
  end.

Definition fieldLabel (activeTab : Tab) : jsstring :=
  if strictEq (tabId activeTab) (lit "advisor") then lit "Advisor Details"
  else if strictEq (tabId activeTab) (lit "announcement") then lit "Announcement Text"
  else if strictEq (tabId activeTab) (lit "social") then lit "Social Media Content"
  else lit "Stock Information".

End VerificationCard.

(** *** Dashboard: colour classes *)

Module Dashboard.

(** The value of a property read: a string of the object literal itself,
    a member inherited from [Object.prototype] (a function or object, hence
    truthy), or [undefined]. *)
Inductive Value :=
| Str (s : jsstring)
| Inherited (name : jsstring)
| Undefined.

Definition truthyValue (v : Value) : bool :=
  match v with
  | Str s => truthy s
  | Inherited _ => true
  | Undefined => false
  end.

(** The property names of [Object.prototype]. *)
Definition objectPrototypeNames : list jsstring :=
  [ lit "constructor"; lit "hasOwnProperty"; lit "isPrototypeOf";
    lit "propertyIsEnumerable"; lit "toLocaleString"; lit "toString";
    lit "valueOf"; lit "__proto__"; lit "__defineGetter__";
    lit "__defineSetter__"; lit "__lookupGetter__"; lit "__lookupSetter__" ].

(** The object literal [colors]. *)
Definition colors : list (jsstring * jsstring) :=
  [ (lit "blue", lit "text-blue-600 bg-blue-50");
    (lit "red", lit "text-red-600 bg-red-50");
    (lit "green", lit "text-green-600 bg-green-50");
    (lit "purple", lit "text-purple-600 bg-purple-50") ].

Fixpoint ownProperty (o : list (jsstring * jsstring)) (key : jsstring)
    : option jsstring :=
  match o with
  | [] => None
  | (k, v) :: rest => if strictEq k key then Some v else ownProperty rest key
  end.

(** [o[key]] on an object literal. *)
Definition getProperty (o : list (jsstring * jsstring)) (key : jsstring) : Value :=
  match ownProperty o key with
  | Some v => Str v
  | None =>
      if existsb (strictEq key) objectPrototypeNames then Inherited key
      else Undefined
  end.

(** [colors[color] || colors.blue] *)
Definition getColorClasses (color : jsstring) : Value :=
  if truthyValue (getProperty colors color) then getProperty colors color
  else getProperty colors (lit "blue").

Record Stat := mkStat {
  title : jsstring;
  value : jsstring;
  change : jsstring;
  statIcon : Icon;
  color : jsstring
}.

Definition stats : list Stat :=
  [ mkStat (lit "Total Verifications") (lit "12,543") (lit "+12%") Shield (lit "blue");
    mkStat (lit "Fraud Cases Detected") (lit "892") (lit "+8%") AlertTriangle (lit "red");
    mkStat (lit "Verified Advisors") (lit "5,231") (lit "+15%") Users (lit "green");
    mkStat (lit "Market Alerts") (lit "234") (lit "-5%") TrendingUp (lit "purple") ].

End Dashboard.

(** *** The whole page: the two buttons that open a fixed address *)

Definition footerMailUrl : jsstring := lit "mailto:complaints@sebi.gov.in".
Definition sebiUrl : jsstring := lit "https://sebi.gov.in".

Inductive PageEvent :=
| AppEvent (e : Event)
| ClickFooterMail
| ClickVisitSebi.

Definition openUrl (url : jsstring) (w : World) : World :=
  mkWorld (comp w) (inflight w) (console w) (opened w ++ [url]).

(** The "Visit SEBI" button belongs to the results card, so it exists only
    while the card is shown; the footer is always there. *)
Definition pageStep (w : World) (e : PageEvent) : World :=
  match e with
  | AppEvent e => step w e
  | ClickFooterMail => openUrl footerMailUrl w
  | ClickVisitSebi =>
      match resultsPane (comp w) with
      | ResultsCardPane _ => openUrl sebiUrl w
      | _ => w
      end
  end.

Definition pageRun (w : World) (evs : list PageEvent) : World :=
  fold_left pageStep evs w.

(** Events other than the settling of a call. *)
Definition notSettle (e : Event) : bool :=
  match e with
  | Settle _ => false
  | _ => true
  end.

Definition isRejection (e : Event) : bool :=
  match e with
  | Settle (Rejected _) => true
  | _ => false
  end.

(** *** Reading a percent-encoded text back

    The inverse reader of the form [encodeURIComponent] writes; it serves
    to show that the encoding loses nothing. *)

Definition hexVal (c : N) : option N :=
  (if (0x30 <=? c) && (c <=? 0x39) then Some (c - 0x30)
   else if (0x41 <=? c) && (c <=? 0x46) then Some (c - 0x41 + 10)
   else None)%N.

(** One [%XX] group. *)
Definition readOctet (e : jsstring) : option (N * jsstring) :=
  match e with
  | p :: h :: l :: rest =>
      if (p =? 0x25)%N then
        match hexVal h, hexVal l with
        | Some a, Some b => Some (a * 16 + b, rest)%N
        | _, _ => None
        end
      else None
  | _ => None
  end.

(** The number of continuation octets a UTF-8 lead octet announces, and the
    payload bits the lead octet carries. *)
Definition contCount (b0 : N) : nat :=
  if (b0 <? 0x80)%N then 0%nat
  else if (b0 <? 0xE0)%N then 1%nat
  else if (b0 <? 0xF0)%N then 2%nat else 3%nat.

Definition leadBits (b0 : N) : N :=
  (if b0 <? 0x80 then b0 else if b0 <? 0xE0 then b0 - 0xC0
   else if b0 <? 0xF0 then b0 - 0xE0 else b0 - 0xF0)%N.

Fixpoint readCont (n : nat) (acc : N) (e : jsstring) : option (N * jsstring) :=
  match n with
  | O => Some (acc, e)
  | S n' =>
      match readOctet e with
      | Some (b, rest) => readCont n' (acc * 64 + (b - 0x80))%N rest
      | None => None
      end
  end.

Definition readCodePoint (e : jsstring) : option (N * jsstring) :=
  match readOctet e with
  | Some (b0, rest) => readCont (contCount b0) (leadBits b0) rest
  | None => None
  end.

(** The code units of a code point. *)
Definition utf16 (cp : N) : jsstring :=
  (if cp <? 0x10000 then [cp]
   else [0xD800 + (cp - 0x10000) / 0x400; 0xDC00 + (cp - 0x10000) mod 0x400])%N.

Fixpoint decodeFuel (fuel : nat) (e : jsstring) : option jsstring :=
  match fuel with
  | O => match e with [] => Some [] | _ :: _ => None end
  | S f =>
      match e with
      | [] => Some []
      | c :: r =>
          if (c =? 0x25)%N then
            match readCodePoint e with
            | Some (cp, rest) => option_map (app (utf16 cp)) (decodeFuel f rest)
            | None => None
            end
          else option_map (cons c) (decodeFuel f r)
      end
  end.

Definition decodeComponent (e : jsstring) : option jsstring :=
  decodeFuel (List.length e) e.

(** The clicks that can open a link. *)
Definition isLinkClick (e : PageEvent) : bool :=
  match e with
  | AppEvent ClickReport | ClickFooterMail | ClickVisitSebi => true
  | _ => false
  end.

(** The first reason of the mocked result, chosen by the category. *)
Definition tabReason (t : Tab) : jsstring :=
  match t with
  | advisor => lit "Advisor not found in SEBI registry"
  | announcement => lit "No matching official filing found"
  | social => lit "Contains suspicious keywords"
  | anomaly => lit "Unusual volume spike detected"
  end.

(* ================================================================== *)
(** * Properties *)

(** ** Sanity checks of the string layer *)

Example trim_ex : to_ascii (trim (lit "  Buy XYZ  ")) = "Buy XYZ"%string.
Proof. reflexivity. Qed.

Example encode_ex :
  option_map to_ascii (encodeURIComponent (lit "a b%c"))
  = Some "a%20b%25c"%string.
Proof. reflexivity. Qed.

Example encode_euro :
  option_map to_ascii (encodeURIComponent [0x20AC%N]) = Some "%E2%82%AC"%string.
Proof. reflexivity. Qed.

Example encode_astral :
  option_map to_ascii (encodeURIComponent [0xD83D%N; 0xDE00%N])
  = Some "%F0%9F%98%80"%string.
Proof. reflexivity. Qed.

Example num_ex : to_ascii (numberToString 95) = "95"%string.
Proof. reflexivity. Qed.


(* ================================================================== *)
(** ** Score colouring (ResultsCard) *)

Module ScoreColor.
Import ResultsCard.

Lemma getScoreColor_band score :
  getScoreColor score = bandTextClass (scoreBand score).
Proof.
  unfold getScoreColor, scoreBand.
  destruct (score <? 40)%Z; [reflexivity|].
  destruct (score <? 70)%Z; reflexivity.
Qed.

Lemma barFill_band r :
  backgroundColor (barStyle r) = bandFill (scoreBand (risk_score r)).
Proof.
  unfold barStyle, scoreBand; simpl.
  destruct (risk_score r <? 40)%Z; [reflexivity|].
  destruct (risk_score r <? 70)%Z; reflexivity.
Qed.

Lemma scoreBand_red score : (score < 40)%Z -> scoreBand score = RedBand.
Proof.
  intros H. unfold scoreBand.
  destruct (Z.ltb_spec score 40); [reflexivity | lia].
Qed.

Lemma scoreBand_amber score :
  (40 <= score < 70)%Z -> scoreBand score = AmberBand.
Proof.
  intros H. unfold scoreBand.
  destruct (Z.ltb_spec score 40); [lia|].
  destruct (Z.ltb_spec score 70); [reflexivity | lia].
Qed.

Lemma scoreBand_green score : (70 <= score)%Z -> scoreBand score = GreenBand.
Proof.
  intros H. unfold scoreBand.
  destruct (Z.ltb_spec score 40); [lia|].
  destruct (Z.ltb_spec score 70); [lia | reflexivity].
Qed.

Lemma bandTextClass_inj b b' : bandTextClass b = bandTextClass b' -> b = b'.
Proof. destruct b, b'; simpl; intros H; try reflexivity; discriminate H. Qed.

(** C5. Scores below 40 are coloured red, scores from 40 up to but not
    including 70 amber, and scores of 70 or more green, both for the
    numeral's text class and for the fill of the progress bar; in
    particular 95 is green and 35 is red. *)
Theorem score_banding (r : VerificationResult) :
  ((risk_score r < 40)%Z ->
     getScoreColor (risk_score r) = lit "text-red-600"
     /\ backgroundColor (barStyle r) = lit "#DC2626")
  /\ ((40 <= risk_score r < 70)%Z ->
     getScoreColor (risk_score r) = lit "text-yellow-600"
     /\ backgroundColor (barStyle r) = lit "#D97706")
  /\ ((70 <= risk_score r)%Z ->
     getScoreColor (risk_score r) = lit "text-green-600"
     /\ backgroundColor (barStyle r) = lit "#16A34A")
  /\ getScoreColor 95 = lit "text-green-600"
  /\ getScoreColor 35 = lit "text-red-600".
Proof.
  rewrite getScoreColor_band, barFill_band.
  split; [intros Hlt | split; [intros Hmid | split; [intros Hge | split]]].
  - now rewrite (scoreBand_red Hlt).
  - now rewrite (scoreBand_amber Hmid).
  - now rewrite (scoreBand_green Hge).
  - reflexivity.
  - reflexivity.
Qed.

Lemma score_banding_witness :
  getScoreColor 35 = lit "text-red-600"
  /\ backgroundColor (barStyle (mkResult 35 High [] [])) = lit "#DC2626".
Proof.
  apply (proj1 (score_banding (mkResult 35 High [] []))).
  simpl. lia.
Defined.

Lemma bandFill_inj b b' : bandFill b = bandFill b' -> b = b'.
Proof. destruct b, b'; simpl; intros H; try reflexivity; discriminate H. Qed.

Lemma numLt_finite x y : numLt (Finite x) (Finite y) = true <-> x < y.
Proof.
  simpl. rewrite negb_true_iff. split.
  - intros H. apply Qnot_le_lt. intros Hle. apply Qle_bool_iff in Hle. congruence.
  - intros H. destruct (Qle_bool y x) eqn:E; [|reflexivity].
    apply Qle_bool_iff in E. exfalso. exact (Qlt_not_le _ _ H E).
Qed.

Lemma numLt_finite_false x y : numLt (Finite x) (Finite y) = false <-> y <= x.
Proof.
  simpl. rewrite negb_false_iff. apply Qle_bool_iff.
Qed.

Lemma numLt_ofInt a b : numLt (ofInt a) (ofInt b) = (a <? b)%Z.
Proof.
  unfold ofInt. destruct (Z.ltb_spec a b) as [H | H].
  - apply numLt_finite. now rewrite <- Zlt_Qlt.
  - apply numLt_finite_false. now rewrite <- Zle_Qle.
Qed.

(** On integer scores the colouring of numbers is the colouring of the
    card. *)
Lemma numeric_on_integers (r : VerificationResult) :
  NumericScore.getScoreColor (ofInt (risk_score r)) = getScoreColor (risk_score r)
  /\ NumericScore.barFill (ofInt (risk_score r)) = backgroundColor (barStyle r).
Proof.
  unfold NumericScore.getScoreColor, NumericScore.barFill, getScoreColor, barStyle.
  rewrite !numLt_ofInt. split; reflexivity.
Qed.

Lemma numeric_band (score : number) :
  exists b, NumericScore.getScoreColor score = bandTextClass b
            /\ NumericScore.barFill score = bandFill b.
Proof.
  unfold NumericScore.getScoreColor, NumericScore.barFill.
  destruct (numLt score (ofInt 40)); [exists RedBand; split; reflexivity|].
  destruct (numLt score (ofInt 70));
    [exists AmberBand | exists GreenBand]; split; reflexivity.
Qed.

(** C10. The colouring is total on all numbers, also outside 0..100 and
    outside the integers: every negative score (negative infinity
    included) is red, every score above 100 (positive infinity included)
    is green, NaN is green because both comparisons fail, and every number
    gets exactly one of the three colours, for the numeral and for the
    fill of the progress bar alike; on integer scores this is the
    colouring the card shows. *)
Theorem score_color_total (score : number) :
  (numLt score (ofInt 0) = true ->
     NumericScore.getScoreColor score = lit "text-red-600"
     /\ NumericScore.barFill score = lit "#DC2626")
  /\ (numLt (ofInt 100) score = true ->
     NumericScore.getScoreColor score = lit "text-green-600"
     /\ NumericScore.barFill score = lit "#16A34A")
  /\ (score = NaN ->
     NumericScore.getScoreColor score = lit "text-green-600"
     /\ NumericScore.barFill score = lit "#16A34A")
  /\ (exists b,
        (NumericScore.getScoreColor score = bandTextClass b
         /\ NumericScore.barFill score = bandFill b)
        /\ forall b',
             NumericScore.getScoreColor score = bandTextClass b'
             \/ NumericScore.barFill score = bandFill b' -> b' = b)
  /\ (forall r, score = ofInt (risk_score r) ->
        NumericScore.getScoreColor score = getScoreColor (risk_score r)
        /\ NumericScore.barFill score = backgroundColor (barStyle r)).
Proof.
  split; [|split; [|split; [|split]]].
  - intros Hneg. unfold NumericScore.getScoreColor, NumericScore.barFill.
    assert (H40 : numLt score (ofInt 40) = true).
    { destruct score as [q | | |]; try discriminate Hneg; [|reflexivity].
      apply numLt_finite. apply numLt_finite in Hneg.
      apply Qlt_trans with (inject_Z 0); [exact Hneg | reflexivity]. }
    rewrite H40. split; reflexivity.
  - intros Hbig. unfold NumericScore.getScoreColor, NumericScore.barFill.
    assert (H : numLt score (ofInt 40) = false /\ numLt score (ofInt 70) = false).
    { destruct score as [q | | |]; try discriminate Hbig;
        [|split; reflexivity].
      apply numLt_finite in Hbig.
      split; apply numLt_finite_false; apply Qlt_le_weak;
        (apply Qlt_trans with (inject_Z 100); [reflexivity | exact Hbig]). }
    destruct H as [-> ->]. split; reflexivity.
  - intros ->. split; reflexivity.
  - destruct (numeric_band score) as [b [Hc Hf]].
    exists b. split; [split; assumption|].
    intros b' [Hb | Hb]; symmetry.
    + apply bandTextClass_inj. congruence.
    + apply bandFill_inj. congruence.
  - intros r ->. apply numeric_on_integers.
Qed.

Lemma score_color_total_witness :
  (NumericScore.getScoreColor (Finite (-15 # 2)) = lit "text-red-600"
   /\ NumericScore.barFill (Finite (-15 # 2)) = lit "#DC2626")
  /\ (NumericScore.getScoreColor NegInfinity = lit "text-red-600"
      /\ NumericScore.barFill NegInfinity = lit "#DC2626")
  /\ (NumericScore.getScoreColor PosInfinity = lit "text-green-600"
      /\ NumericScore.barFill PosInfinity = lit "#16A34A")
  /\ (NumericScore.getScoreColor (Finite (2001 # 20)) = lit "text-green-600"
      /\ NumericScore.barFill (Finite (2001 # 20)) = lit "#16A34A")
  /\ (NumericScore.getScoreColor NaN = lit "text-green-600"
      /\ NumericScore.barFill NaN = lit "#16A34A").
Proof.
  split; [|split; [|split; [|split]]].
  - apply (proj1 (score_color_total (Finite (-15 # 2)))). reflexivity.
  - apply (proj1 (score_color_total NegInfinity)). reflexivity.
  - apply (proj1 (proj2 (score_color_total PosInfinity))). reflexivity.
  - apply (proj1 (proj2 (score_color_total (Finite (2001 # 20))))). reflexivity.
  - apply (proj1 (proj2 (proj2 (score_color_total NaN)))). reflexivity.
Defined.

End ScoreColor.

(* ================================================================== *)
(** ** Facts about the string layer *)

Module StringFacts.

Lemma to_ascii_lit (s : string) : to_ascii (lit s) = s.
Proof.
  unfold to_ascii, lit. rewrite map_map.
  rewrite (map_ext _ (fun a => a)) by apply ascii_N_embedding.
  rewrite map_id. apply string_of_list_ascii_of_string.
Qed.

Lemma lit_bounded (s : string) : Forall (fun c => (c < 256)%N) (lit s).
Proof.
  unfold lit. apply Forall_forall. intros c Hc.
  apply in_map_iff in Hc. destruct Hc as [a [<- _]].
  apply N_ascii_bounded.
Qed.

(** *** trim *)

Lemma trimStart_nil_iff s : trimStart s = [] <-> forallb isWhiteSpace s = true.
Proof.
  induction s as [|c r IH]; simpl.
  - tauto.
  - destruct (isWhiteSpace c); simpl; [exact IH|].
    split; intros H; discriminate H.
Qed.

Lemma trimStart_all_white s : forallb isWhiteSpace (trimStart s) = true ->
  trimStart s = [].
Proof.
  induction s as [|c r IH]; simpl; [reflexivity|].
  destruct (isWhiteSpace c) eqn:E; [exact IH|].
  simpl. rewrite E. discriminate.
Qed.

Lemma forallb_rev {A} (f : A -> bool) l : forallb f (rev l) = forallb f l.
Proof.
  induction l as [|a l IH]; simpl; [reflexivity|].
  rewrite forallb_app, IH. simpl. rewrite andb_true_r. apply andb_comm.
Qed.

(** The trimmed text is empty exactly when every character is white space
    (in particular when the text is empty). *)
Lemma trim_nil_iff s : trim s = [] <-> forallb isWhiteSpace s = true.
Proof.
  unfold trim, trimEnd. split.
  - intros H. apply (f_equal (@rev N)) in H.
    rewrite rev_involutive in H. simpl in H.
    apply trimStart_nil_iff in H. rewrite forallb_rev in H.
    apply trimStart_all_white in H. now apply trimStart_nil_iff.
  - intros H. apply trimStart_nil_iff in H. rewrite H. reflexivity.
Qed.

Lemma truthy_false_iff s : truthy s = false <-> s = [].
Proof. destruct s; simpl; split; congruence. Qed.

(** *** includes *)

Lemma prefixb_app p s : prefixb p (p ++ s) = true.
Proof.
  induction p as [|a p IH]; simpl; [reflexivity|].
  now rewrite N.eqb_refl.
Qed.

Lemma includes_prefix s p : prefixb p s = true -> includes s p = true.
Proof. intros H. destruct s; simpl; rewrite H; reflexivity. Qed.

Lemma includes_cons x s p : includes s p = true -> includes (x :: s) p = true.
Proof. intros H. simpl. rewrite H. apply orb_true_r. Qed.

Lemma includes_app_r a p b : includes (a ++ p ++ b) p = true.
Proof.
  induction a as [|x a IH]; cbn [app].
  - apply includes_prefix, prefixb_app.
  - apply includes_cons, IH.
Qed.

Lemma includes_spec s p :
  includes s p = true <-> exists a b, s = a ++ p ++ b.
Proof.
  split.
  - induction s as [|x s IH]; simpl.
    + rewrite orb_false_r. destruct p; [|discriminate].
      intros _. now exists [], [].
    + intros H. apply orb_true_iff in H. destruct H as [H | H].
      * clear IH. exists []. simpl.
        revert H. generalize (x :: s). clear x s.
        induction p as [|a p IHp]; intros s H; simpl in *.
        -- now exists s.
        -- destruct s as [|b s]; [discriminate|].
           apply andb_true_iff in H. destruct H as [Hab Hp].
           apply N.eqb_eq in Hab. subst b.
           destruct (IHp _ Hp) as [t ->]. now exists t.
      * destruct (IH H) as [a [b ->]]. now exists (x :: a), b.
  - intros [a [b ->]]. apply includes_app_r.
Qed.

End StringFacts.

(* ================================================================== *)
(** ** Progress bar width (ResultsCard) *)

Module ProgressBar.
Import ResultsCard StringFacts.

Lemma to_int_proper (z : Z) :
  Z.to_int z <> Decimal.Pos Decimal.Nil /\ Z.to_int z <> Decimal.Neg Decimal.Nil.
Proof.
  destruct z as [|p|p]; simpl; split; try discriminate;
    intros [= H]; exact (DecimalPos.Unsigned.to_uint_nonnil p H).
Qed.

Lemma percentValue_numberToString (z : Z) :
  percentValue (numberToString z ++ lit "%") = Some z.
Proof.
  unfold percentValue, numberToString.
  change (lit "%") with [0x25%N].
  rewrite rev_unit, N.eqb_refl, rev_involutive, to_ascii_lit.
  destruct (to_int_proper z) as [Hp Hn].
  rewrite NilZero.isi by assumption. simpl.
  now rewrite DecimalZ.of_to.
Qed.

(** C6. The width of the progress-bar fill is the score itself followed by
    a per-cent sign, so the percentage it denotes is the score: 0..100
    maps identically to 0%..100%, and a score of 95 gives "95%". *)
Theorem bar_width_is_score (r : VerificationResult) :
  width (barStyle r) = numberToString (risk_score r) ++ lit "%"
  /\ percentValue (width (barStyle r)) = Some (risk_score r)
  /\ (risk_score r = 95%Z -> width (barStyle r) = lit "95%").
Proof.
  split; [reflexivity | split].
  - apply percentValue_numberToString.
  - intros H. unfold barStyle; simpl. rewrite H. reflexivity.
Qed.

Lemma bar_width_is_score_witness :
  width (barStyle (mkResult 95 Low [] [])) = lit "95%".
Proof.
  apply (proj2 (proj2 (bar_width_is_score (mkResult 95 Low [] [])))).
  reflexivity.
Defined.

End ProgressBar.

(* ================================================================== *)
(** ** The verification state machine *)

Module Orchestrator.
Import StringFacts.

Lemma run_snoc w evs e : run w (evs ++ [e]) = step (run w evs) e.
Proof. unfold run. now rewrite fold_left_app. Qed.

Lemma handleReport_comp w : comp (handleReport w) = comp w.
Proof. unfold handleReport. now destruct (reportUrl (comp w)). Qed.

Lemma handleReport_inflight w : inflight (handleReport w) = inflight w.
Proof. unfold handleReport. now destruct (reportUrl (comp w)). Qed.

Lemma handleVerify_blank w :
  truthy (trim (inputValue (comp w))) = false -> handleVerify w = w.
Proof. intros H. unfold handleVerify. now rewrite H. Qed.

Lemma handleVerify_nonblank w :
  truthy (trim (inputValue (comp w))) = true ->
  handleVerify w =
    mkWorld (mkApp (activeTab (comp w)) true None (inputValue (comp w)))
            (inflight w ++ [(activeTab (comp w), inputValue (comp w))])
            (console w) (opened w).
Proof. intros H. unfold handleVerify. now rewrite H. Qed.

(** The button guard: a click on a disabled button does nothing. *)
Lemma click_disabled w :
  verifyDisabled (comp w) = true -> step w ClickVerify = w.
Proof. intros H. simpl. now rewrite H. Qed.

Lemma singleFlight_init : singleFlight init.
Proof. left. split; reflexivity. Qed.

Lemma singleFlight_step w e : singleFlight w -> singleFlight (step w e).
Proof.
  intros Hw. destruct e as [t | v | | | o]; simpl.
  - destruct Hw as [[Hq Hl] | [c [Hq [Hl Hr]]]]; [left | right; exists c];
      simpl; auto.
  - destruct Hw as [[Hq Hl] | [c [Hq [Hl Hr]]]]; [left | right; exists c];
      simpl; auto.
  - destruct (verifyDisabled (comp w)) eqn:Hd; [exact Hw|].
    unfold verifyDisabled in Hd. apply orb_false_iff in Hd.
    destruct Hd as [Ht Hl]. apply negb_false_iff in Ht.
    rewrite (handleVerify_nonblank _ Ht).
    destruct Hw as [[Hq _] | [c [_ [Hl' _]]]]; [|congruence].
    right. exists (activeTab (comp w), inputValue (comp w)).
    simpl. rewrite Hq. auto.
  - destruct (resultsPane (comp w)); try exact Hw.
    unfold singleFlight.
    rewrite handleReport_comp, handleReport_inflight. exact Hw.
  - destruct (inflight w) as [|c rest] eqn:Hq; [exact Hw|].
    destruct Hw as [[Hq' _] | [c' [Hq' _]]]; [congruence|].
    assert (rest = []) by congruence. subst rest.
    left. destruct o; simpl; auto.
Qed.

Lemma singleFlight_run evs : singleFlight (run init evs).
Proof.
  induction evs as [|e evs IH] using rev_ind.
  - apply singleFlight_init.
  - rewrite run_snoc. now apply singleFlight_step.
Qed.

Lemma singleFlight_reachable w : reachable w -> singleFlight w.
Proof. intros [evs ->]. apply singleFlight_run. Qed.

Lemma singleFlight_length w : singleFlight w -> (List.length (inflight w) <= 1)%nat.
Proof.
  intros [[-> _] | [c [-> _]]]; simpl; lia.
Qed.

(** C1. While a request is in flight ([loading] is true) the submit button
    is disabled, so a further click changes nothing and starts no second
    call; hence in every state the component can reach at most one call is
    outstanding. *)
Theorem no_second_call_while_loading :
  (forall w, loading (comp w) = true ->
     verifyDisabled (comp w) = true /\ step w ClickVerify = w)
  /\ (forall w, reachable w -> (List.length (inflight (step w ClickVerify)) <= 1)%nat
                             /\ (List.length (inflight w) <= 1)%nat).
Proof.
  split.
  - intros w Hl.
    assert (Hd : verifyDisabled (comp w) = true).
    { unfold verifyDisabled. rewrite Hl. apply orb_true_r. }
    split; [exact Hd | now apply click_disabled].
  - intros w Hr. apply singleFlight_reachable in Hr. split.
    + apply singleFlight_length. now apply singleFlight_step.
    + now apply singleFlight_length.
Qed.

Lemma no_second_call_while_loading_witness :
  loading (comp pendingWorld) = true
  /\ inflight pendingWorld = [(advisor, lit "John Smith")]
  /\ step pendingWorld ClickVerify = pendingWorld
  /\ (List.length (inflight (step pendingWorld ClickVerify)) <= 1)%nat.
Proof.
  split; [reflexivity | split; [reflexivity | split]].
  - apply (proj1 no_second_call_while_loading pendingWorld). reflexivity.
  - apply (proj2 no_second_call_while_loading pendingWorld).
    exists [ChangeInput (lit "John Smith"); ClickVerify]. reflexivity.
Defined.

(** The guard lives in the button, not in the handler: [handleVerify]
    called directly on a loading state would start another call. *)
Lemma handleVerify_itself_unguarded :
  inflight (handleVerify pendingWorld)
  = [(advisor, lit "John Smith"); (advisor, lit "John Smith")].
Proof. reflexivity. Qed.

(** C2. When the trimmed text is not empty, the synchronous part of
    [handleVerify] sets [loading], clears the stored result and starts the
    awaited call, leaving category and text as they were; and the result
    stored when that call is fulfilled is the freshly built one, whatever
    was stored before. *)
Theorem submit_enters_pending (w : World)
    (Htext : truthy (trim (inputValue (comp w))) = true) :
  loading (comp (handleVerify w)) = true
  /\ results (comp (handleVerify w)) = None
  /\ inflight (handleVerify w)
     = inflight w ++ [(activeTab (comp w), inputValue (comp w))]
  /\ activeTab (comp (handleVerify w)) = activeTab (comp w)
  /\ inputValue (comp (handleVerify w)) = inputValue (comp w)
  /\ resultsPane (comp (handleVerify w)) = LoadingSpinner
  /\ (inflight w = [] ->
      forall g,
        results (comp (step (handleVerify w) (Settle (Fulfilled g))))
        = Some (fst (mockResult (activeTab (comp w), inputValue (comp w)) g))).
Proof.
  rewrite (handleVerify_nonblank _ Htext). simpl.
  repeat (split; [reflexivity|]).
  intros Hq g. rewrite Hq. reflexivity.
Qed.

Lemma submit_enters_pending_witness :
  loading (comp (handleVerify settledWorld)) = true
  /\ results (comp (handleVerify settledWorld)) = None.
Proof.
  assert (H : truthy (trim (inputValue (comp settledWorld))) = true)
    by reflexivity.
  destruct (submit_enters_pending settledWorld H) as [Hl [Hr _]].
  split; assumption.
Defined.

(** C3. When the text is empty once trimmed (empty, or white space only),
    [handleVerify] returns at its guard: the whole state is unchanged, no
    call is started, and the button itself is disabled. *)
Theorem submit_blank_is_noop (w : World)
    (Hblank : trim (inputValue (comp w)) = []) :
  handleVerify w = w
  /\ step w ClickVerify = w
  /\ verifyDisabled (comp w) = true
  /\ inflight (handleVerify w) = inflight w
  /\ forallb isWhiteSpace (inputValue (comp w)) = true.
Proof.
  assert (Ht : truthy (trim (inputValue (comp w))) = false)
    by now apply truthy_false_iff.
  assert (Hd : verifyDisabled (comp w) = true)
    by (unfold verifyDisabled; now rewrite Ht).
  rewrite (handleVerify_blank _ Ht).
  repeat split; auto using click_disabled.
  now apply trim_nil_iff.
Qed.

Lemma submit_blank_is_noop_witness :
  handleVerify blankWorld = blankWorld
  /\ step blankWorld ClickVerify = blankWorld.
Proof.
  assert (H : trim (inputValue (comp blankWorld)) = []) by reflexivity.
  destruct (submit_blank_is_noop blankWorld H) as [Hv [Hc _]].
  split; assumption.
Defined.

(** C4. When the awaited call of a request in flight is rejected, the
    error is logged to the console, [loading] is cleared, the stored result
    stays absent, and the pane shows the initial "Ready to Analyze"
    presentation (there is no error presentation); nothing is left in
    flight and the button is enabled again exactly when the text is not
    blank. *)
Theorem failure_returns_to_ready (w : World) (error : jsstring)
    (Hreach : reachable w) (Hloading : loading (comp w) = true) :
  let w' := step w (Settle (Rejected error)) in
  console w' = console w ++ [(lit "Verification failed:", error)]
  /\ loading (comp w') = false
  /\ results (comp w') = None
  /\ resultsPane (comp w') = ReadyToAnalyze
  /\ resultsPane (comp w') = resultsPane (comp init)
  /\ inflight w' = []
  /\ activeTab (comp w') = activeTab (comp w)
  /\ inputValue (comp w') = inputValue (comp w)
  /\ verifyDisabled (comp w') = negb (truthy (trim (inputValue (comp w))))
  /\ (truthy (trim (inputValue (comp w))) = true ->
      inflight (step w' ClickVerify)
      = [(activeTab (comp w), inputValue (comp w))]).
Proof.
  apply singleFlight_reachable in Hreach.
  destruct Hreach as [[_ Hl] | [c [Hq [_ Hr]]]]; [congruence|].
  destruct w as [[t l r v] q cons op]; simpl in *. subst q r.
  unfold resultsPane, verifyDisabled; simpl.
  rewrite orb_false_r.
  repeat (split; [reflexivity|]).
  intros Ht. rewrite Ht. simpl.
  unfold handleVerify; simpl. rewrite Ht. reflexivity.
Qed.

Lemma failure_returns_to_ready_witness :
  resultsPane (comp (step pendingWorld (Settle (Rejected (lit "boom")))))
  = ReadyToAnalyze
  /\ console (step pendingWorld (Settle (Rejected (lit "boom"))))
     = [(lit "Verification failed:", lit "boom")].
Proof.
  assert (Hr : reachable pendingWorld)
    by (exists [ChangeInput (lit "John Smith"); ClickVerify]; reflexivity).
  assert (Hl : loading (comp pendingWorld) = true) by reflexivity.
  destruct (failure_returns_to_ready (lit "boom") Hr Hl)
    as [Hc [_ [_ [Hp _]]]].
  split; [exact Hp | exact Hc].
Defined.

End Orchestrator.

(* ================================================================== *)
(** ** Binary64 products *)

Module Binary64.

Lemma inj_lt_half a b : inject_Z a < inject_Z b + (1 # 2) -> (a <= b)%Z.
Proof.
  intros H. destruct (Z_le_gt_dec a b) as [Hle | Hgt]; [exact Hle|].
  assert (Hb : (b + 1 <= a)%Z) by lia.
  rewrite Zle_Qle, inject_Z_plus in Hb. change (inject_Z 1) with 1 in Hb. lra.
Qed.

Lemma roundHalfEven_le y J :
  y < inject_Z J + (1 # 2) -> (roundHalfEven y <= J)%Z.
Proof.
  intros Hy. unfold roundHalfEven.
  pose proof (Qfloor_le y) as Hlo. pose proof (Qlt_floor y) as Hhi.
  rewrite inject_Z_plus in Hhi. change (inject_Z 1) with 1 in Hhi.
  set (k := Qfloor y) in *.
  assert (Hk : (k <= J)%Z) by (apply inj_lt_half; lra).
  destruct (Qcompare_spec (y - inject_Z k) (1 # 2)) as [He | Hl | Hg].
  - assert (Hk' : (k < J)%Z) by (rewrite Zlt_Qlt; lra).
    destruct (Z.even k); lia.
  - exact Hk.
  - assert (Hk' : (k < J)%Z) by (rewrite Zlt_Qlt; lra). lia.
Qed.

Lemma roundHalfEven_nonneg y : 0 <= y -> (0 <= roundHalfEven y)%Z.
Proof.
  intros Hy. unfold roundHalfEven.
  assert (Hk : (0 <= Qfloor y)%Z).
  { change 0%Z with (Qfloor 0). now apply Qfloor_resp_le. }
  destruct (Qcompare (y - inject_Z (Qfloor y)) (1 # 2)); [|lia|lia].
  destruct (Z.even (Qfloor y)); lia.
Qed.

Lemma floorLog2_small x : 0 < x -> x < 100 ->
  (floorLog2 x <= 6)%Z /\ ((floorLog2 x <= 5)%Z -> x < 64).
Proof.
  intros H0 H100. unfold floorLog2.
  destruct (Qle_bool 1 x) eqn:E.
  - apply Qle_bool_iff in E.
    assert (H1 : (1 <= Qfloor x)%Z).
    { change 1%Z with (Qfloor 1). now apply Qfloor_resp_le. }
    assert (H99 : (Qfloor x <= 99)%Z).
    { assert (Hlt : (Qfloor x < 100)%Z); [|lia].
      rewrite Zlt_Qlt. apply Qle_lt_trans with x; [apply Qfloor_le | exact H100]. }
    split.
    + change 6%Z with (Z.log2 99). now apply Z.log2_le_mono.
    + intros H5.
      assert (Hs : (Qfloor x < 2 ^ Z.succ (Z.log2 (Qfloor x)))%Z)
        by (apply Z.log2_spec; lia).
      assert (Hp : (2 ^ Z.succ (Z.log2 (Qfloor x)) <= 2 ^ 6)%Z)
        by (apply Z.pow_le_mono_r; lia).
      assert (H63 : (Qfloor x + 1 <= 64)%Z) by (change (2 ^ 6)%Z with 64%Z in Hp; lia).
      pose proof (Qlt_floor x) as Hf.
      rewrite Zle_Qle in H63. change (inject_Z 64) with 64 in H63. lra.
  - split.
    + pose proof (Z.log2_up_nonneg (Qceiling (/ x))). lia.
    + intros _. 
      assert (Hx : ~ 1 <= x) by (intros H; apply Qle_bool_iff in H; congruence).
      lra.
Qed.

Lemma pow2_pos q : 0 < 2 ^ q.
Proof. apply Qpower_0_lt. reflexivity. Qed.

Lemma pow2_cancel q : 2 ^ (- q) * 2 ^ q == 1.
Proof.
  rewrite <- Qpower_plus by discriminate.
  replace (- q + q)%Z with 0%Z by lia. reflexivity.
Qed.

Lemma roundPositive_nonneg x : 0 < x -> 0 <= roundPositive x.
Proof.
  intros Hx. unfold roundPositive.
  pose proof (pow2_pos (ulpExponent x)) as Hq.
  pose proof (pow2_pos (- ulpExponent x)) as Hq'.
  apply Qmult_le_0_compat; [|lra].
  change 0 with (inject_Z 0). rewrite <- Zle_Qle.
  apply roundHalfEven_nonneg. apply Qmult_le_0_compat; lra.
Qed.

(** Below 100 - 100 * 2^(-53) the rounded value stays below 100: from 64
    on the doubles are 2^(-46) apart and the value is rounded down to
    100 - 2^(-46) at most; below 64 it is rounded to 64 at most. *)
Lemma roundPositive_below_100 x :
  0 < x -> x <= 100 - (100 # 9007199254740992) -> roundPositive x < 100.
Proof.
  intros Hx H1.
  assert (Hx100 : x < 100) by lra.
  destruct (@floorLog2_small x Hx Hx100) as [He6 He5].
  pose proof (pow2_pos (ulpExponent x)) as Hq.
  pose proof (pow2_pos (- ulpExponent x)) as Hq'.
  pose proof (pow2_cancel (ulpExponent x)) as Hc.
  unfold roundPositive.
  destruct (Z.eq_dec (floorLog2 x) 6) as [E6 | N6].
  - unfold ulpExponent in *. rewrite E6 in *.
    change (Z.max 6 (-1022) - 52)%Z with (-46)%Z in *.
    change (- -46)%Z with 46%Z in *.
    change (2 ^ 46) with (70368744177664 # 1) in *.
    change (2 ^ (-46)) with (1 # 70368744177664) in *.
    assert (Hr : (roundHalfEven (x * (70368744177664 # 1))
                  <= 7036874417766399)%Z).
    { apply roundHalfEven_le.
      change (inject_Z 7036874417766399) with (7036874417766399 # 1). lra. }
    rewrite Zle_Qle in Hr.
    change (inject_Z 7036874417766399) with (7036874417766399 # 1) in Hr. lra.
  - assert (H64 : x < 64) by (apply He5; lia).
    set (q := ulpExponent x) in *.
    assert (Hqle : (q <= -47)%Z) by (unfold q, ulpExponent; lia).
    assert (HJ : inject_Z (2 ^ (6 - q)) == 64 * 2 ^ (- q)).
    { rewrite Zpower_Qpower by lia.
      replace (6 - q)%Z with (6 + - q)%Z by lia.
      rewrite Qpower_plus by discriminate. reflexivity. }
    assert (Hr : (roundHalfEven (x * 2 ^ (- q)) <= 2 ^ (6 - q))%Z).
    { apply roundHalfEven_le. rewrite HJ.
      assert (x * 2 ^ (- q) < 64 * 2 ^ (- q))
        by (apply Qmult_lt_compat_r; assumption).
      lra. }
    rewrite Zle_Qle, HJ in Hr.
    assert (Hm : inject_Z (roundHalfEven (x * 2 ^ (- q))) * 2 ^ q
                 <= 64 * 2 ^ (- q) * 2 ^ q).
    { apply Qmult_le_compat_r; [exact Hr | lra]. }
    assert (Hc' : 64 * 2 ^ (- q) * 2 ^ q == 64).
    { rewrite <- Qmult_assoc, Hc. reflexivity. }
    rewrite Hc' in Hm. lra.
Qed.

Lemma score_bound r :
  0 <= r -> r <= 1 - (1 # 9007199254740992) ->
  (0 <= Qfloor (mulDouble r 100) <= 99)%Z.
Proof.
  intros H0 H1. unfold mulDouble, roundDouble.
  destruct (Qcompare_spec (r * 100) 0) as [He | Hl | Hg].
  - change (Qfloor 0) with 0%Z. lia.
  - exfalso. lra.
  - split.
    + change 0%Z with (Qfloor 0). apply Qfloor_resp_le.
      now apply roundPositive_nonneg.
    + assert (Hlt : (Qfloor (roundPositive (r * 100)) < 100)%Z); [|lia].
      rewrite Zlt_Qlt. change (inject_Z 100) with 100.
      eapply Qle_lt_trans; [apply Qfloor_le|].
      apply roundPositive_below_100; lra.
Qed.

Lemma unitDouble_range r :
  unitDouble r -> 0 <= r /\ r <= 1 - (1 # 9007199254740992).
Proof.
  intros [m [k [[Hm0 Hm] [[Hk0 Hk] [Hr H1]]]]].
  pose proof (pow2_pos (- k)) as HP.
  assert (Hm0' : 0 <= inject_Z m).
  { change 0 with (inject_Z 0). now rewrite <- Zle_Qle. }
  split.
  { rewrite Hr. apply Qmult_le_0_compat; lra. }
  assert (Hmk : (m < 2 ^ k)%Z).
  { rewrite Zlt_Qlt, Zpower_Qpower by lia.
    change (inject_Z 2) with 2.
    rewrite Hr in H1.
    assert (H : inject_Z m * 2 ^ (- k) * 2 ^ k < 1 * 2 ^ k)
      by (apply Qmult_lt_compat_r; [apply pow2_pos | exact H1]).
    rewrite <- Qmult_assoc, pow2_cancel in H. lra. }
  destruct (Z_le_gt_dec k 53) as [Hle | Hgt].
  - assert (HM : (m * 2 ^ (53 - k) <= 2 ^ 53 - 1)%Z).
    { assert (H2 : ((m + 1) * 2 ^ (53 - k) <= 2 ^ k * 2 ^ (53 - k))%Z)
        by (apply Z.mul_le_mono_nonneg_r; [apply Z.pow_nonneg|]; lia).
      rewrite <- Z.pow_add_r in H2 by lia.
      replace (k + (53 - k))%Z with 53%Z in H2 by lia.
      assert (0 < 2 ^ (53 - k))%Z by (apply Z.pow_pos_nonneg; lia).
      lia. }
    assert (Hp : 2 ^ (- k) == inject_Z (2 ^ (53 - k)) * (1 # 9007199254740992)).
    { rewrite Zpower_Qpower by lia. change (inject_Z 2) with 2.
      change (1 # 9007199254740992) with (2 ^ (-53)).
      rewrite <- Qpower_plus by discriminate.
      replace (53 - k + -53)%Z with (- k)%Z by lia. reflexivity. }
    rewrite Zle_Qle, inject_Z_mult in HM.
    change (inject_Z (2 ^ 53 - 1)) with (9007199254740991 # 1) in HM.
    rewrite Hr, Hp. lra.
  - assert (Hp : 2 ^ (- k) <= 1 # 9007199254740992).
    { change (1 # 9007199254740992) with (2 ^ (-53)).
      apply Qpower_le_compat_l; [lia | discriminate]. }
    assert (Hm' : inject_Z m <= 9007199254740991 # 1).
    { change (9007199254740991 # 1) with (inject_Z (2 ^ 53 - 1)).
      rewrite <- Zle_Qle. lia. }
    assert (H : inject_Z m * 2 ^ (- k) <= (9007199254740991 # 1) * 2 ^ (- k))
      by (apply Qmult_le_compat_r; lra).
    rewrite Hr. lra.
Qed.

(** The product with 100 as the program computes it, at the doubles
    nearest to 0.7, 0.29, 0.57 and 0.58. *)
Example product_examples :
  Qfloor (mulDouble (3152519739159347 # 4503599627370496) 100) = 70%Z
  /\ Qfloor (mulDouble (5224175567749775 # 18014398509481984) 100) = 28%Z
  /\ Qfloor (mulDouble (5134103575202365 # 9007199254740992) 100) = 56%Z
  /\ Qfloor (mulDouble (5224175567749775 # 9007199254740992) 100) = 57%Z.
Proof. vm_compute. repeat split. Qed.

Lemma scoreDraw_double score :
  (0 <= score <= 99)%Z -> unitDouble (scoreDraw score).
Proof.
  intros Hs. unfold scoreDraw.
  set (m := ((score * 2 ^ 53 + 2 ^ 52) / 100)%Z).
  assert (Hm : (0 <= m < 2 ^ 53)%Z).
  { unfold m. split.
    - apply Z.div_pos; lia.
    - apply Z.div_lt_upper_bound; lia. }
  exists m, 53%Z. split; [exact Hm|]. split; [lia|]. split.
  - change (2 ^ (-53)) with (1 # 9007199254740992).
    unfold Qeq, Qmult, inject_Z; simpl. lia.
  - unfold Qlt; simpl.
    change (2 ^ 53)%Z with 9007199254740992%Z in Hm. lia.
Qed.

Lemma zero_double : unitDouble 0.
Proof.
  exists 0%Z, 0%Z. split; [lia|]. split; [lia|]. split; reflexivity.
Qed.

Lemma three_quarters_double : unitDouble (3 # 4).
Proof.
  exists 3%Z, 2%Z. split; [lia|]. split; [lia|]. split; reflexivity.
Qed.

(** The score each [scoreDraw] leads to, checked draw by draw. *)
Lemma scoreDraw_score score :
  (0 <= score <= 99)%Z -> Qfloor (mulDouble (scoreDraw score) 100) = score.
Proof.
  intros Hs.
  assert (H : forallb (fun n => (Qfloor (mulDouble (scoreDraw n) 100) =? n)%Z)
                      (map Z.of_nat (seq 0 100)) = true)
    by (vm_compute; reflexivity).
  rewrite forallb_forall in H. apply Z.eqb_eq. apply H.
  rewrite <- (Z2Nat.id score) by lia. apply in_map. apply in_seq. lia.
Qed.

End Binary64.

(* ================================================================== *)
(** ** The mocked result *)

Module MockResult.

Lemma mockResult_score c g :
  risk_score (fst (mockResult c g)) = Qfloor (mulDouble (g 0%nat) 100).
Proof.
  destruct c as [t v].
  cbv beta iota zeta delta [fst risk_score mockResult bind Math_random ret].
  destruct (gtb (g 1%nat) (6 # 10)); reflexivity.
Qed.

Lemma mockResult_level c g :
  risk_level (fst (mockResult c g))
  = if gtb (g 1%nat) (6 # 10) then High
    else if gtb (g 2%nat) (3 # 10) then Medium else Low.
Proof.
  destruct c as [t v]. unfold mockResult, bind, Math_random, ret. simpl.
  destruct (gtb (g 1%nat) (6 # 10)); reflexivity.
Qed.

Lemma mockResult_reasons c g :
  List.length (reasons (fst (mockResult c g))) = 2%nat.
Proof.
  destruct c as [t v]. unfold mockResult, bind, Math_random, ret. simpl.
  destruct (gtb (g 1%nat) (6 # 10)); reflexivity.
Qed.

Lemma doubleDraws_unit g : doubleDraws g -> unitDraws g.
Proof.
  intros Hg n. destruct (Binary64.unitDouble_range (Hg n)) as [H0 _].
  destruct (Hg n) as [m [k [_ [_ [_ H1]]]]]. split; assumption.
Qed.

(** The score of a result lies between 0 and 99 whenever the first draw is
    a double in [0, 1). *)
Lemma double_score_bounds (q : Q) :
  unitDouble q -> (0 <= Qfloor (mulDouble q 100) <= 99)%Z.
Proof.
  intros Hq. destruct (Binary64.unitDouble_range Hq) as [H0 H1].
  now apply Binary64.score_bound.
Qed.

Lemma drawsFor_double score lvl :
  (0 <= score <= 99)%Z -> doubleDraws (drawsFor score lvl).
Proof.
  intros Hs n. unfold drawsFor.
  destruct n as [|[|[|n]]].
  - now apply Binary64.scoreDraw_double.
  - destruct lvl; first [apply Binary64.three_quarters_double
                        | apply Binary64.zero_double].
  - destruct lvl; first [apply Binary64.three_quarters_double
                        | apply Binary64.zero_double].
  - apply Binary64.zero_double.
Qed.

Lemma drawsFor_unit score lvl :
  (0 <= score <= 99)%Z -> unitDraws (drawsFor score lvl).
Proof. intros Hs. now apply doubleDraws_unit, drawsFor_double. Qed.

Lemma drawsFor_result c score lvl :
  (0 <= score <= 99)%Z ->
  risk_score (fst (mockResult c (drawsFor score lvl))) = score
  /\ risk_level (fst (mockResult c (drawsFor score lvl))) = lvl.
Proof.
  intros Hs. rewrite mockResult_score, mockResult_level. split.
  - now apply Binary64.scoreDraw_score.
  - destruct lvl; reflexivity.
Qed.

Lemma produced_drawsFor c score lvl :
  (0 <= score <= 99)%Z -> produced (fst (mockResult c (drawsFor score lvl))).
Proof.
  intros Hs. exists c, (drawsFor score lvl). split; [|reflexivity].
  now apply drawsFor_double.
Qed.


(** Ordering the cells the other way round does not help either. *)
Lemma upward_order_fails_too : ~ levelFollowsScoreUpward.
Proof.
  intros H.
  specialize (H (fst (mockResult (advisor, []) (drawsFor 90 Low)))
                (fst (mockResult (advisor, []) (drawsFor 10 High)))).
  assert (H10 : (0 <= 10 <= 99)%Z) by lia.
  assert (H90 : (0 <= 90 <= 99)%Z) by lia.
  specialize (H (produced_drawsFor _ Low H90) (produced_drawsFor _ High H10)).
  destruct (drawsFor_result (advisor, []) Low H90) as [Es1 El1].
  destruct (drawsFor_result (advisor, []) High H10) as [Es2 El2].
  rewrite Es1, El1, Es2, El2 in H. simpl in H. lia.
Qed.



End MockResult.

(* ================================================================== *)
(** ** encodeURIComponent *)

Module Encoding.
Import StringFacts.

Lemma below_forall (P : N -> bool) (n : nat) :
  forallb P (map N.of_nat (seq 0 n)) = true ->
  forall x, (x < N.of_nat n)%N -> P x = true.
Proof.
  intros H x Hx. rewrite forallb_forall in H. apply H.
  rewrite <- (N2Nat.id x). apply in_map. apply in_seq. lia.
Qed.

Lemma pctOctet_safe b : (b < 256)%N -> forallb isUriSafe (pctOctet b) = true.
Proof.
  intros Hb.
  apply (@below_forall (fun b => forallb isUriSafe (pctOctet b)) 256);
    [vm_compute; reflexivity | exact Hb].
Qed.

Lemma shiftr_below a k m :
  (a < 2 ^ k * m)%N -> (N.shiftr a k < m)%N.
Proof.
  intros H. rewrite N.shiftr_div_pow2.
  now apply N.Div0.div_lt_upper_bound.
Qed.

Lemma low6_below a : (N.land a 0x3F < 64)%N.
Proof.
  change 0x3F%N with (N.ones 6). rewrite N.land_ones.
  apply N.mod_upper_bound. discriminate.
Qed.

Lemma cont_byte x : (x < 64)%N -> (N.lor 0x80 x < 256)%N.
Proof.
  intros Hx. apply N.ltb_lt.
  apply (@below_forall (fun x => N.lor 0x80 x <? 256)%N 64);
    [vm_compute; reflexivity | exact Hx].
Qed.

Lemma lead2_byte x : (x < 32)%N -> (N.lor 0xC0 x < 256)%N.
Proof.
  intros Hx. apply N.ltb_lt.
  apply (@below_forall (fun x => N.lor 0xC0 x <? 256)%N 32);
    [vm_compute; reflexivity | exact Hx].
Qed.

Lemma lead3_byte x : (x < 16)%N -> (N.lor 0xE0 x < 256)%N.
Proof.
  intros Hx. apply N.ltb_lt.
  apply (@below_forall (fun x => N.lor 0xE0 x <? 256)%N 16);
    [vm_compute; reflexivity | exact Hx].
Qed.

Lemma lead4_byte x : (x < 8)%N -> (N.lor 0xF0 x < 256)%N.
Proof.
  intros Hx. apply N.ltb_lt.
  apply (@below_forall (fun x => N.lor 0xF0 x <? 256)%N 8);
    [vm_compute; reflexivity | exact Hx].
Qed.

(** Every octet of the UTF-8 form of a code point fits in a byte. *)
Lemma utf8_octets cp :
  (cp < 0x110000)%N -> Forall (fun b => (b < 256)%N) (utf8 cp).
Proof.
  intros Hcp. unfold utf8.
  destruct (N.ltb_spec cp 0x80) as [H1 | H1].
  { constructor; [lia | constructor]. }
  destruct (N.ltb_spec cp 0x800) as [H2 | H2].
  { repeat constructor.
    - apply lead2_byte, shiftr_below. simpl. lia.
    - apply cont_byte, low6_below. }
  destruct (N.ltb_spec cp 0x10000) as [H3 | H3].
  { repeat constructor.
    - apply lead3_byte, shiftr_below. simpl. lia.
    - apply cont_byte, low6_below.
    - apply cont_byte, low6_below. }
  repeat constructor.
  - apply lead4_byte, shiftr_below. simpl. lia.
  - apply cont_byte, low6_below.
  - apply cont_byte, low6_below.
  - apply cont_byte, low6_below.
Qed.

Lemma pctCodePoint_safe cp :
  (cp < 0x110000)%N -> forallb isUriSafe (pctCodePoint cp) = true.
Proof.
  intros Hcp. unfold pctCodePoint.
  induction (utf8_octets Hcp) as [|b bs Hb _ IH]; [reflexivity|].
  cbn [flat_map]. rewrite forallb_app, IH, (pctOctet_safe Hb). reflexivity.
Qed.

Lemma pair_code_point c d :
  isLeadSurrogate c = true -> isTrailSurrogate d = true ->
  ((c - 0xD800) * 0x400 + (d - 0xDC00) + 0x10000 < 0x110000)%N.
Proof.
  unfold isLeadSurrogate, isTrailSurrogate. intros Hc Hd.
  apply andb_true_iff in Hc. apply andb_true_iff in Hd.
  destruct Hc as [Hc1 Hc2], Hd as [Hd1 Hd2].
  apply N.leb_le in Hc1, Hc2, Hd1, Hd2. lia.
Qed.

Lemma option_map_Some {A B} (f : A -> B) o b :
  option_map f o = Some b -> exists a, o = Some a /\ b = f a.
Proof. destruct o as [a|]; simpl; [intros [= <-]; now exists a | discriminate]. Qed.

(** The output of [encodeURIComponent] consists of unreserved characters
    and per-cent signs only. *)
Lemma encode_safe s :
  validString s = true ->
  forall e, encodeURIComponent s = Some e -> forallb isUriSafe e = true.
Proof.
  enough (H : (validString s = true ->
               forall e, encodeURIComponent s = Some e -> forallb isUriSafe e = true)
              /\ forall c, validString (c :: s) = true ->
                   forall e, encodeURIComponent (c :: s) = Some e ->
                             forallb isUriSafe e = true)
    by exact (proj1 H).
  induction s as [|d r [IH1 IH2]].
  - split.
    + intros _ e [= <-]. reflexivity.
    + intros c Hv e. simpl.
      apply andb_true_iff in Hv. destruct Hv as [Hc _].
      unfold isCodeUnit in Hc. apply N.ltb_lt in Hc.
      destruct (isUnreserved c) eqn:Hu.
      * intros [= <-]. simpl. unfold isUriSafe. now rewrite Hu.
      * destruct (isTrailSurrogate c); [discriminate|].
        destruct (isLeadSurrogate c); [discriminate|].
        intros [= <-]. rewrite app_nil_r. apply pctCodePoint_safe. lia.
  - split.
    + apply IH2.
    + intros c Hv e.
      cbn [validString forallb] in Hv.
      apply andb_true_iff in Hv. destruct Hv as [Hc Hv].
      unfold isCodeUnit in Hc. apply N.ltb_lt in Hc.
      cbn [encodeURIComponent].
      change (match d :: r with
              | [] => Some []
              | c0 :: r0 => _
              end) with (encodeURIComponent (d :: r)).
      destruct (isUnreserved c) eqn:Hu.
      * intros He. apply option_map_Some in He. destruct He as [e' [He' ->]].
        simpl. unfold isUriSafe at 1. rewrite Hu. simpl.
        now apply (IH2 d Hv).
      * destruct (isTrailSurrogate c); [discriminate|].
        destruct (isLeadSurrogate c) eqn:Hl.
        -- destruct (isTrailSurrogate d) eqn:Ht; [|discriminate].
           intros He. apply option_map_Some in He. destruct He as [e' [He' ->]].
           rewrite forallb_app, (pctCodePoint_safe (pair_code_point _ _ Hl Ht)).
           simpl. apply IH1; [|exact He'].
           cbn [forallb] in Hv. apply andb_true_iff in Hv. apply Hv.
        -- intros He. apply option_map_Some in He. destruct He as [e' [He' ->]].
           rewrite forallb_app, pctCodePoint_safe by lia.
           simpl. now apply (IH2 d Hv).
Qed.

Ltac to_prop :=
  repeat match goal with
  | H : _ || _ = true |- _ => apply orb_true_iff in H; destruct H as [H | H]
  | H : _ && _ = true |- _ =>
      let H1 := fresh H in
      apply andb_true_iff in H; destruct H as [H H1]
  | H : (_ =? _)%N = true |- _ => apply N.eqb_eq in H
  | H : (_ <=? _)%N = true |- _ => apply N.leb_le in H
  | H : (_ <? _)%N = true |- _ => apply N.ltb_lt in H
  end.

Lemma unreserved_ascii c : isUnreserved c = true -> (c < 0x80)%N.
Proof. unfold isUnreserved. intros H. to_prop; lia. Qed.

Lemma below_surrogates c :
  (c < 0xD800)%N -> isTrailSurrogate c = false /\ isLeadSurrogate c = false.
Proof.
  intros H. unfold isTrailSurrogate, isLeadSurrogate. split.
  - destruct (N.leb_spec 0xDC00 c); [lia | reflexivity].
  - destruct (N.leb_spec 0xD800 c); [lia | reflexivity].
Qed.

Lemma encode_cons c r :
  encodeURIComponent (c :: r) =
    if isUnreserved c then option_map (cons c) (encodeURIComponent r)
    else if isTrailSurrogate c then None
    else if isLeadSurrogate c then
      match r with
      | [] => None
      | d :: r' =>
          if isTrailSurrogate d then
            option_map
              (app (pctCodePoint ((c - 0xD800) * 0x400 + (d - 0xDC00) + 0x10000)%N))
              (encodeURIComponent r')
          else None
      end
    else option_map (app (pctCodePoint c)) (encodeURIComponent r).
Proof. reflexivity. Qed.

Lemma wellFormed_cons c r :
  wellFormed (c :: r) =
    if isTrailSurrogate c then false
    else if isLeadSurrogate c then
      match r with
      | [] => false
      | d :: r' => isTrailSurrogate d && wellFormed r'
      end
    else wellFormed r.
Proof. reflexivity. Qed.

(** [encodeURIComponent] returns a text exactly on the strings without
    unpaired surrogates. *)
Lemma encode_total_iff s :
  wellFormed s = true <-> exists e, encodeURIComponent s = Some e.
Proof.
  enough (H : (wellFormed s = true <-> exists e, encodeURIComponent s = Some e)
              /\ forall c, wellFormed (c :: s) = true
                           <-> exists e, encodeURIComponent (c :: s) = Some e)
    by exact (proj1 H).
  induction s as [|d r [IH1 IH2]].
  - split.
    + simpl. split; [now exists [] | reflexivity].
    + intros c. simpl.
      destruct (isUnreserved c) eqn:Hu.
      * destruct (@below_surrogates c) as [-> ->].
        { apply unreserved_ascii in Hu. lia. }
        split; [now eexists | reflexivity].
      * destruct (isTrailSurrogate c); [split; [discriminate | intros [e [=]]]|].
        destruct (isLeadSurrogate c); [split; [discriminate | intros [e [=]]]|].
        split; [now eexists | reflexivity].
  - split; [apply IH2|].
    intros c. rewrite (encode_cons c), (wellFormed_cons c).
    destruct (isUnreserved c) eqn:Hu.
    + destruct (@below_surrogates c) as [-> ->].
      { apply unreserved_ascii in Hu. lia. }
      rewrite (IH2 d). split.
      * intros [e ->]. now eexists.
      * intros [e He]. apply option_map_Some in He.
        destruct He as [e' [He' _]]. now exists e'.
    + destruct (isTrailSurrogate c); [split; [discriminate | intros [e [=]]]|].
      destruct (isLeadSurrogate c).
      * destruct (isTrailSurrogate d); simpl;
          [|split; [discriminate | intros [e [=]]]].
        rewrite IH1. split.
        -- intros [e ->]. now eexists.
        -- intros [e He]. apply option_map_Some in He.
           destruct He as [e' [He' _]]. now exists e'.
      * rewrite (IH2 d). split.
        -- intros [e ->]. now eexists.
        -- intros [e He]. apply option_map_Some in He.
           destruct He as [e' [He' _]]. now exists e'.
Qed.

Lemma wellFormed_app a b :
  wellFormed a = true -> wellFormed b = true -> wellFormed (a ++ b) = true.
Proof.
  intros Ha Hb. revert Ha.
  enough (H : (wellFormed a = true -> wellFormed (a ++ b) = true)
              /\ forall c, wellFormed (c :: a) = true ->
                           wellFormed (c :: a ++ b) = true)
    by exact (proj1 H).
  induction a as [|d r [IH1 IH2]].
  - split; [intros _; exact Hb|].
    intros c. simpl.
    destruct (isTrailSurrogate c); [discriminate|].
    destruct (isLeadSurrogate c); [discriminate|].
    intros _. exact Hb.
  - split; [apply IH2|].
    intros c. cbn [app]. rewrite (wellFormed_cons c (d :: r)).
    rewrite (wellFormed_cons c (d :: r ++ b)).
    destruct (isTrailSurrogate c); [discriminate|].
    destruct (isLeadSurrogate c).
    + destruct (isTrailSurrogate d); simpl; [apply IH1 | discriminate].
    + apply IH2.
Qed.

Lemma wellFormed_small s :
  Forall (fun c => (c < 256)%N) s -> wellFormed s = true.
Proof.
  induction 1 as [|c r Hc _ IH]; [reflexivity|].
  simpl. destruct (@below_surrogates c) as [-> ->]; [lia | exact IH].
Qed.

Lemma wellFormed_lit s : wellFormed (lit s) = true.
Proof. apply wellFormed_small, lit_bounded. Qed.

Lemma wellFormed_join sep xs :
  wellFormed sep = true -> forallb wellFormed xs = true ->
  wellFormed (join sep xs) = true.
Proof.
  intros Hsep. induction xs as [|x rest IH]; [reflexivity|].
  cbn [forallb]. intros H. apply andb_true_iff in H. destruct H as [Hx Hr].
  destruct rest as [|y rest]; [exact Hx|].
  change (join sep (x :: y :: rest)) with (x ++ sep ++ join sep (y :: rest)).
  auto using wellFormed_app.
Qed.

Lemma validString_app a b :
  validString (a ++ b) = validString a && validString b.
Proof. apply forallb_app. Qed.

Lemma validString_lit s : validString (lit s) = true.
Proof.
  apply forallb_forall. intros c Hc.
  pose proof (lit_bounded s) as Hb. rewrite Forall_forall in Hb.
  apply Hb in Hc. unfold isCodeUnit. apply N.ltb_lt. lia.
Qed.

Lemma validString_join sep xs :
  validString sep = true -> forallb validString xs = true ->
  validString (join sep xs) = true.
Proof.
  intros Hsep. induction xs as [|x rest IH]; [reflexivity|].
  cbn [forallb]. intros H. apply andb_true_iff in H. destruct H as [Hx Hr].
  destruct rest as [|y rest]; [exact Hx|].
  change (join sep (x :: y :: rest)) with (x ++ sep ++ join sep (y :: rest)).
  rewrite !validString_app, Hx, Hsep, (IH Hr). reflexivity.
Qed.

End Encoding.

(* ================================================================== *)
(** ** The complaint draft *)

Module Report.
Import StringFacts Encoding.

Lemma includes_here p b : includes (p ++ b) p = true.
Proof. apply (includes_app_r [] p b). Qed.

Lemma includes_skip a s p : includes s p = true -> includes (a ++ s) p = true.
Proof.
  intros H. apply includes_spec in H. destruct H as [x [y ->]].
  rewrite app_assoc. apply includes_app_r.
Qed.

Ltac find_part :=
  first [ apply includes_here | apply includes_skip; find_part ].

Lemma reportBody_present s r :
  results s = Some r ->
  reportBody s = draftBody (activeTab s) (inputValue s) r.
Proof. intros H. unfold reportBody, draftBody. rewrite H. reflexivity. Qed.

Lemma wellFormed_tabId t : wellFormed (tabId t) = true.
Proof. destruct t; apply wellFormed_lit. Qed.

Lemma validString_tabId t : validString (tabId t) = true.
Proof. destruct t; apply validString_lit. Qed.

Lemma wellFormed_subject s : wellFormed (reportSubject s) = true.
Proof.
  unfold reportSubject.
  auto using wellFormed_app, wellFormed_lit, wellFormed_tabId.
Qed.

Lemma validString_subject s : validString (reportSubject s) = true.
Proof.
  unfold reportSubject.
  now rewrite !validString_app, !validString_lit, validString_tabId.
Qed.

Lemma wellFormed_draftBody t v r :
  wellFormed v = true -> forallb wellFormed (reasons r) = true ->
  wellFormed (ai_explanation r) = true ->
  wellFormed (draftBody t v r) = true.
Proof.
  intros Hv Hr He. unfold draftBody, numberToString.
  assert (HLF : wellFormed LF = true) by reflexivity.
  repeat (apply wellFormed_app;
          [ first [ apply wellFormed_lit | exact HLF | apply wellFormed_tabId
                  | exact Hv | exact He
                  | apply wellFormed_join; [apply wellFormed_lit | exact Hr] ] | ]).
  apply wellFormed_lit.
Qed.

Lemma validString_draftBody t v r :
  validString v = true -> forallb validString (reasons r) = true ->
  validString (ai_explanation r) = true ->
  validString (draftBody t v r) = true.
Proof.
  intros Hv Hr He. unfold draftBody, numberToString.
  assert (HLF : validString LF = true) by reflexivity.
  rewrite !validString_app, !validString_lit, HLF, validString_tabId, Hv, He.
  rewrite validString_join; [reflexivity | apply validString_lit | exact Hr].
Qed.

Lemma reportUrl_shape s url :
  reportUrl s = Some url ->
  exists es eb,
    encodeURIComponent (reportSubject s) = Some es
    /\ encodeURIComponent (reportBody s) = Some eb
    /\ url = mailtoPrefix ++ es ++ lit "&body=" ++ eb.
Proof.
  unfold reportUrl.
  destruct (encodeURIComponent (reportSubject s)) as [es|]; [|discriminate].
  destruct (encodeURIComponent (reportBody s)) as [eb|]; [|discriminate].
  intros [= <-]. now exists es, eb.
Qed.

(** C8, as stated, fails: the reasons are joined with a comma and a space,
    not with newlines. *)
Lemma reasons_not_joined_by_newlines : ~ draftEmbedsNewlineJoinedReasons.
Proof.
  intros H.
  specialize (H (comp reportWorld)
                (fst (mockResult (social, lit "Buy XYZ for 300% returns")
                                 (drawsFor 90 High)))
                eq_refl).
  vm_compute in H. discriminate H.
Qed.

(** The example of the specification: category, text and score appear in
    the body. *)
Example report_example :
  includes (reportBody (comp reportWorld)) (lit "social") = true
  /\ includes (reportBody (comp reportWorld)) (lit "Buy XYZ for 300% returns") = true
  /\ includes (reportBody (comp reportWorld)) (lit "90") = true
  /\ includes (reportBody (comp reportWorld))
       (lit "Reasons: Contains suspicious keywords, AI analysis flagged potential fraud indicators")
     = true.
Proof. vm_compute. repeat split. Qed.

(** C8, amended. The draft is a function of the category, the text and the
    result alone.  Its subject names the category; its body embeds the
    category, the text, the score, the reasons joined by a comma and a
    space, and the explanation.  The link is the fixed mailto address
    followed by the percent-encoded subject and body, which consist of
    URI-safe characters only; and the link exists whenever text, reasons
    and explanation contain no unpaired surrogate. *)
Theorem draft_composition (s : AppState) (r : VerificationResult)
    (Hres : results s = Some r) :
  (reportSubject s = lit "Fraud Report - " ++ tabId (activeTab s) ++ lit " Verification"
   /\ reportBody s = draftBody (activeTab s) (inputValue s) r)
  /\ (includes (reportBody s) (tabId (activeTab s)) = true
      /\ includes (reportBody s) (inputValue s) = true
      /\ includes (reportBody s) (numberToString (risk_score r)) = true
      /\ includes (reportBody s) (join (lit ", ") (reasons r)) = true
      /\ includes (reportBody s) (ai_explanation r) = true)
  /\ (forall s', activeTab s' = activeTab s -> inputValue s' = inputValue s ->
                 results s' = results s ->
                 reportSubject s' = reportSubject s
                 /\ reportBody s' = reportBody s
                 /\ reportUrl s' = reportUrl s)
  /\ (forall url, reportUrl s = Some url ->
        exists es eb,
          encodeURIComponent (reportSubject s) = Some es
          /\ encodeURIComponent (reportBody s) = Some eb
          /\ url = mailtoPrefix ++ es ++ lit "&body=" ++ eb
          /\ forallb isUriSafe es = true
          /\ (validString (inputValue s) = true ->
              forallb validString (reasons r) = true ->
              validString (ai_explanation r) = true ->
              forallb isUriSafe eb = true))
  /\ (wellFormed (inputValue s) = true ->
      forallb wellFormed (reasons r) = true ->
      wellFormed (ai_explanation r) = true ->
      exists url, reportUrl s = Some url).
Proof.
  pose proof (reportBody_present s Hres) as Hbody.
  split; [split; [reflexivity | exact Hbody]|].
  split.
  { rewrite Hbody. unfold draftBody. repeat split; find_part. }
  split.
  { intros s' Ht Hv Hr.
    destruct s as [t l r0 v], s' as [t' l' r' v']; simpl in *. subst t' v' r'.
    repeat split; reflexivity. }
  split.
  { intros url Hurl.
    destruct (reportUrl_shape _ Hurl) as [es [eb [Hes [Heb ->]]]].
    exists es, eb. repeat split; try assumption.
    - apply encode_safe with (s := reportSubject s);
        [apply validString_subject | exact Hes].
    - intros Hv Hr He. apply encode_safe with (s := reportBody s); [|exact Heb].
      rewrite Hbody. now apply validString_draftBody. }
  intros Hv Hr He.
  pose proof (wellFormed_subject s) as Hs.
  pose proof (@wellFormed_draftBody (activeTab s) _ _ Hv Hr He) as Hb.
  rewrite <- Hbody in Hb.
  apply encode_total_iff in Hs, Hb.
  destruct Hs as [es Hes], Hb as [eb Heb].
  unfold reportUrl. rewrite Hes, Heb. now eexists.
Qed.

Lemma draft_composition_witness :
  includes (reportBody (comp reportWorld))
    (join (lit ", ")
       [lit "Contains suspicious keywords";
        lit "AI analysis flagged potential fraud indicators"]) = true
  /\ exists url, reportUrl (comp reportWorld) = Some url.
Proof.
  pose proof (@draft_composition (comp reportWorld)
                (fst (mockResult (social, lit "Buy XYZ for 300% returns")
                                 (drawsFor 90 High)))
                eq_refl) as [_ [[_ [_ [_ [Hj _]]]] [_ [_ Htot]]]].
  split.
  - exact Hj.
  - apply Htot; reflexivity.
Defined.

Lemma prefixb_mailto es rest : prefixb mailtoPrefix (mailtoPrefix ++ es ++ rest) = true.
Proof. apply prefixb_app. Qed.

(** The result a fulfilled request stores is built from the category and
    text captured when the request was submitted. *)
Lemma result_of_request w g :
  verifyDisabled (comp w) = false -> inflight w = [] ->
  results (comp (run w [ClickVerify; Settle (Fulfilled g)]))
  = Some (fst (mockResult (activeTab (comp w), inputValue (comp w)) g))
  /\ loading (comp (run w [ClickVerify; Settle (Fulfilled g)])) = false.
Proof.
  intros Hd Hq. unfold run; cbn [fold_left step]. rewrite Hd.
  unfold verifyDisabled in Hd. apply orb_false_iff in Hd.
  destruct Hd as [Ht _]. apply negb_false_iff in Ht.
  rewrite (Orchestrator.handleVerify_nonblank _ Ht). cbn [inflight].
  rewrite Hq. split; reflexivity.
Qed.

Lemma step_report w r :
  loading (comp w) = false -> results (comp w) = Some r ->
  step w ClickReport = handleReport w.
Proof.
  intros Hl Hr. unfold step, resultsPane. now rewrite Hl, Hr.
Qed.

Lemma handleReport_opened w :
  opened (handleReport w)
  = match reportUrl (comp w) with
    | Some url => opened w ++ [url]
    | None => opened w
    end.
Proof. unfold handleReport. now destruct (reportUrl (comp w)). Qed.

Lemma edit_after_result w t v :
  comp (run w [SelectTab t; ChangeInput v])
  = mkApp t (loading (comp w)) (results (comp w)) v
  /\ opened (run w [SelectTab t; ChangeInput v]) = opened w.
Proof. split; reflexivity. Qed.

Lemma reportUrl_total s r :
  results s = Some r ->
  wellFormed (inputValue s) = true ->
  forallb wellFormed (reasons r) = true ->
  wellFormed (ai_explanation r) = true ->
  exists url, reportUrl s = Some url.
Proof.
  intros Hres Hv Hr He.
  pose proof (wellFormed_subject s) as Hs.
  pose proof (@wellFormed_draftBody (activeTab s) _ _ Hv Hr He) as Hb.
  rewrite <- (reportBody_present _ Hres) in Hb.
  apply encode_total_iff in Hs, Hb.
  destruct Hs as [es Hes], Hb as [eb Heb].
  unfold reportUrl. rewrite Hes, Heb. eexists. reflexivity.
Qed.

(** C9. The draft is composed from the category and text in state when the
    report button is pressed: after a result has arrived, selecting another
    category and editing the text leave the result in place, and the draft
    then carries the new category and the new text together with the
    score, reasons and explanation of that earlier result; the report
    button then opens a link (texts without unpaired surrogates always
    encode), and every link opened is addressed to
    complaints@sebi.gov.in. *)
Theorem report_reads_current_state (w : World) (r : VerificationResult)
    (t : Tab) (v : jsstring)
    (Hres : results (comp w) = Some r) (Hidle : loading (comp w) = false) :
  let w' := run w [SelectTab t; ChangeInput v] in
  results (comp w') = Some r
  /\ resultsPane (comp w') = ResultsCardPane r
  /\ reportSubject (comp w') = lit "Fraud Report - " ++ tabId t ++ lit " Verification"
  /\ reportBody (comp w') = draftBody t v r
  /\ (forall url, reportUrl (comp w') = Some url ->
        opened (step w' ClickReport) = opened w ++ [url]
        /\ prefixb mailtoPrefix url = true
        /\ exists es eb,
             encodeURIComponent (lit "Fraud Report - " ++ tabId t ++ lit " Verification")
             = Some es
             /\ encodeURIComponent (draftBody t v r) = Some eb
             /\ url = mailtoPrefix ++ es ++ lit "&body=" ++ eb)
  /\ (reportUrl (comp w') = None -> opened (step w' ClickReport) = opened w)
  /\ (wellFormed v = true -> forallb wellFormed (reasons r) = true ->
      wellFormed (ai_explanation r) = true ->
      exists url es eb,
        opened (step w' ClickReport) = opened w ++ [url]
        /\ encodeURIComponent (lit "Fraud Report - " ++ tabId t ++ lit " Verification")
           = Some es
        /\ encodeURIComponent (draftBody t v r) = Some eb
        /\ url = mailtoPrefix ++ es ++ lit "&body=" ++ eb).
Proof.
  cbv zeta.
  destruct (edit_after_result w t v) as [Hcomp Hop].
  set (w' := run w [SelectTab t; ChangeInput v]) in *.
  assert (Hres' : results (comp w') = Some r) by now rewrite Hcomp.
  assert (Hidle' : loading (comp w') = false) by now rewrite Hcomp.
  assert (Hbody : reportBody (comp w') = draftBody t v r).
  { rewrite (reportBody_present _ Hres'), Hcomp. reflexivity. }
  assert (Hsubj : reportSubject (comp w')
                  = lit "Fraud Report - " ++ tabId t ++ lit " Verification").
  { unfold reportSubject. rewrite Hcomp. reflexivity. }
  split; [exact Hres'|].
  split; [unfold resultsPane; now rewrite Hidle', Hres'|].
  split; [exact Hsubj|]. split; [exact Hbody|].
  rewrite (step_report _ Hidle' Hres'), handleReport_opened, Hop.
  split.
  - intros url Hurl. rewrite Hurl. split; [reflexivity|].
    destruct (reportUrl_shape _ Hurl) as [es [eb [Hes [Heb ->]]]].
    split; [apply prefixb_mailto|].
    rewrite Hsubj in Hes. rewrite Hbody in Heb.
    exists es, eb. split; [exact Hes | split; [exact Heb | reflexivity]].
  - split; [intros Hnone; rewrite Hnone; reflexivity|].
    intros Hv Hr He.
    assert (Hv' : wellFormed (inputValue (comp w')) = true)
      by (rewrite Hcomp; exact Hv).
    destruct (reportUrl_total _ Hres' Hv' Hr He) as [url Hurl].
    destruct (reportUrl_shape _ Hurl) as [es [eb [Hes [Heb Eu]]]].
    rewrite Hsubj in Hes. rewrite Hbody in Heb.
    exists url, es, eb. rewrite Hurl.
    split; [reflexivity | split; [exact Hes | split; [exact Heb | exact Eu]]].
Qed.

Lemma report_reads_current_state_witness :
  reportBody (comp (run reportWorld [SelectTab advisor; ChangeInput (lit "John Smith")]))
  = draftBody advisor (lit "John Smith")
      (fst (mockResult (social, lit "Buy XYZ for 300% returns") (drawsFor 90 High)))
  /\ exists url es eb,
       opened (step (run reportWorld [SelectTab advisor; ChangeInput (lit "John Smith")])
                    ClickReport)
       = opened reportWorld ++ [url]
       /\ encodeURIComponent (lit "Fraud Report - " ++ tabId advisor ++ lit " Verification")
          = Some es
       /\ encodeURIComponent
            (draftBody advisor (lit "John Smith")
               (fst (mockResult (social, lit "Buy XYZ for 300% returns")
                                (drawsFor 90 High))))
          = Some eb
       /\ url = mailtoPrefix ++ es ++ lit "&body=" ++ eb.
Proof.
  assert (Hres : results (comp reportWorld)
                 = Some (fst (mockResult (social, lit "Buy XYZ for 300% returns")
                                         (drawsFor 90 High))))
    by reflexivity.
  assert (Hidle : loading (comp reportWorld) = false) by reflexivity.
  pose proof (@report_reads_current_state reportWorld _ advisor (lit "John Smith")
                Hres Hidle) as H.
  cbv zeta in H. destruct H as [_ [_ [_ [Hbody [_ [_ Hlink]]]]]].
  split; [exact Hbody|].
  apply Hlink; reflexivity.
Defined.

(** After such an edit the draft names the new category and text, while
    the explanation it quotes still cites the text that was analysed. *)
Example report_after_edit :
  let s := comp (run reportWorld [SelectTab advisor; ChangeInput (lit "John Smith")]) in
  includes (reportBody s) (lit "Type: advisor") = true
  /\ includes (reportBody s) (lit "Content: John Smith") = true
  /\ includes (reportBody s) (lit "Risk Score: 90") = true
  /\ includes (reportBody s) (lit "analysis of " ++ DQUOTE ++ lit "Buy XYZ for 300% returns" ++ DQUOTE) = true
  /\ includes (reportBody s) (lit "Type: social") = false.
Proof. vm_compute. repeat split. Qed.

End Report.

(* ================================================================== *)
(** ** The header of the results card *)

Module RiskHeaderFacts.
Import RiskHeader.

Lemma strictEq_eq a b : strictEq a b = true <-> a = b.
Proof.
  revert b. induction a as [|x a IH]; intros [|y b]; simpl;
    try (split; [discriminate | discriminate]); try tauto.
  rewrite andb_true_iff, N.eqb_eq, IH.
  split; [intros [-> ->]; reflexivity | intros [= -> ->]; auto].
Qed.

Lemma strictEq_neq a b : a <> b -> strictEq a b = false.
Proof.
  intros H. destruct (strictEq a b) eqn:E; [|reflexivity].
  apply strictEq_eq in E. contradiction.
Qed.

(** X1. A level text other than exactly "High", "Medium" or "Low" (the
    comparison is case sensitive) takes the [default] arm of both switches:
    grey classes and the Info icon.  Nothing is rejected. *)
Theorem unknown_level_falls_back (level : jsstring)
    (Hh : level <> lit "High") (Hm : level <> lit "Medium")
    (Hl : level <> lit "Low") :
  getRiskColor level = lit "text-gray-600 bg-gray-50 border-gray-200"
  /\ getRiskIcon level = Info.
Proof.
  unfold getRiskColor, getRiskIcon.
  rewrite (strictEq_neq Hh), (strictEq_neq Hm), (strictEq_neq Hl).
  split; reflexivity.
Qed.

Lemma unknown_level_falls_back_witness :
  getRiskColor (lit "high") = lit "text-gray-600 bg-gray-50 border-gray-200"
  /\ getRiskIcon (lit "high") = Info.
Proof.
  apply (@unknown_level_falls_back (lit "high")); discriminate.
Defined.

Lemma getRiskColor_level l :
  getRiskColor (levelLabel l)
  = match l with
    | High => lit "text-red-600 bg-red-50 border-red-200"
    | Medium => lit "text-yellow-600 bg-yellow-50 border-yellow-200"
    | Low => lit "text-green-600 bg-green-50 border-green-200"
    end.
Proof. destruct l; reflexivity. Qed.

Lemma getRiskIcon_level l :
  getRiskIcon (levelLabel l)
  = match l with
    | Low => CheckCircle
    | _ => AlertTriangle
    end.
Proof. destruct l; reflexivity. Qed.

(** X2. For the three levels of the result type the colour classes tell
    the levels apart and are never the grey fallback, while the icon only
    separates Low (check mark) from Medium and High (the same alert
    triangle). *)
Theorem level_colours_distinct_icons_shared (l l' : RiskLevel) :
  (getRiskColor (levelLabel l) = getRiskColor (levelLabel l') -> l = l')
  /\ getRiskColor (levelLabel l) <> lit "text-gray-600 bg-gray-50 border-gray-200"
  /\ getRiskIcon (levelLabel l) <> Info
  /\ (getRiskIcon (levelLabel l) = getRiskIcon (levelLabel l')
      <-> (l = Low <-> l' = Low)).
Proof.
  rewrite !getRiskColor_level, !getRiskIcon_level.
  split; [|split; [|split]].
  - destruct l, l'; intros H; try reflexivity; discriminate H.
  - destruct l; discriminate.
  - destruct l; discriminate.
  - destruct l, l'; split; intros H;
      try reflexivity; try discriminate H;
      try (split; intros H'; (reflexivity || discriminate H'));
      try (destruct H as [Ha Hb];
           first [discriminate (Ha eq_refl) | discriminate (Hb eq_refl)]).
Qed.

Lemma level_colours_distinct_icons_shared_witness :
  getRiskIcon (levelLabel High) = getRiskIcon (levelLabel Medium).
Proof.
  apply (proj2 (proj2 (proj2 (level_colours_distinct_icons_shared High Medium)))).
  split; discriminate.
Defined.



End RiskHeaderFacts.

(* ================================================================== *)
(** ** Tabs, input card and dashboard *)

Module Navigation.
Import RiskHeaderFacts.

Lemma tabId_inj t t' : tabId t = tabId t' -> t = t'.
Proof. destruct t, t'; intros H; try reflexivity; discriminate H. Qed.

Lemma isActive_iff s tab : isActive s tab = true <-> id tab = activeTab s.
Proof.
  unfold isActive. rewrite strictEq_eq. split.
  - intros H. symmetry. now apply tabId_inj.
  - intros ->. reflexivity.
Qed.

Lemma tabs_complete t : exists tab, In tab tabs /\ id tab = t.
Proof.
  destruct t;
    [exists (nth 0 tabs (mkTab advisor [] Info []))
    |exists (nth 1 tabs (mkTab advisor [] Info []))
    |exists (nth 2 tabs (mkTab advisor [] Info []))
    |exists (nth 3 tabs (mkTab advisor [] Info []))];
    (split; [simpl; tauto | reflexivity]).
Qed.

Lemma active_tab_of s :
  exists tab, filter (isActive s) tabs = [tab] /\ id tab = activeTab s.
Proof.
  unfold isActive. destruct (activeTab s);
    eexists; (split; [reflexivity | reflexivity]).
Qed.

(** X4. In every state exactly one button of the tab list is highlighted,
    the one of the selected category; a click on a tab button makes that
    button the highlighted one and changes neither the text, the stored
    result nor a request in flight. *)
Theorem one_tab_highlighted (w : World) (tab : TabEntry)
    (Hin : In tab tabs) :
  (exists cur, filter (isActive (comp w)) tabs = [cur]
               /\ id cur = activeTab (comp w))
  /\ filter (isActive (comp (step w (clickTab tab)))) tabs = [tab]
  /\ tabButtonClass (comp (step w (clickTab tab))) tab
     = lit "w-full text-left p-4 rounded-lg transition-all duration-200 bg-blue-50 border-2 border-blue-200 text-blue-800"
  /\ (forall other, In other tabs -> other <> tab ->
        tabButtonClass (comp (step w (clickTab tab))) other
        = lit "w-full text-left p-4 rounded-lg transition-all duration-200 bg-gray-50 border-2 border-transparent text-gray-700 hover:bg-gray-100")
  /\ inputValue (comp (step w (clickTab tab))) = inputValue (comp w)
  /\ results (comp (step w (clickTab tab))) = results (comp w)
  /\ loading (comp (step w (clickTab tab))) = loading (comp w)
  /\ inflight (step w (clickTab tab)) = inflight w.
Proof.
  split; [apply active_tab_of|].
  simpl in Hin.
  destruct Hin as [<- | [<- | [<- | [<- | []]]]];
    (split; [reflexivity|]); (split; [reflexivity|]);
    (split; [|repeat split; reflexivity]);
    intros other Ho Hne; simpl in Ho;
    destruct Ho as [<- | [<- | [<- | [<- | []]]]];
    try reflexivity; now contradiction Hne.
Qed.

Lemma one_tab_highlighted_witness :
  filter (isActive (comp (step init (clickTab (mkTab social (lit "Social Media")
            MessageCircle (lit "Detect social media fraud")))))) tabs
  = [mkTab social (lit "Social Media") MessageCircle
       (lit "Detect social media fraud")].
Proof.
  apply (@one_tab_highlighted init
           (mkTab social (lit "Social Media") MessageCircle
              (lit "Detect social media fraud"))).
  simpl. tauto.
Defined.

(** X5. The icon and the field label of the input card follow the selected
    category: the icon is the one the tab list shows for that category, and
    different categories have different labels. *)
Theorem input_card_follows_tab (tab : TabEntry) (Hin : In tab tabs) :
  VerificationCard.getIcon (id tab) = icon tab
  /\ (forall t, VerificationCard.fieldLabel t = VerificationCard.fieldLabel (id tab)
                -> t = id tab)
  /\ (forall t, VerificationCard.getIcon t = icon tab -> t = id tab).
Proof.
  simpl in Hin.
  destruct Hin as [<- | [<- | [<- | [<- | []]]]];
    (split; [reflexivity|]);
    split; intros t H; destruct t; try reflexivity; discriminate H.
Qed.

Lemma input_card_follows_tab_witness :
  VerificationCard.getIcon anomaly = AlertTriangle.
Proof.
  apply (@input_card_follows_tab
           (mkTab anomaly (lit "Market Anomaly") AlertTriangle
              (lit "Identify pump & dump schemes"))).
  simpl. tauto.
Defined.

(** *** Dashboard *)

Import Dashboard.

Lemma ownProperty_colors_none key :
  key <> lit "blue" -> key <> lit "red" -> key <> lit "green" ->
  key <> lit "purple" -> ownProperty colors key = None.
Proof.
  intros Hb Hr Hg Hp. unfold colors, ownProperty.
  rewrite !strictEq_neq; auto.
Qed.

Lemma existsb_strictEq key l :
  existsb (strictEq key) l = true <-> In key l.
Proof.
  rewrite existsb_exists. split.
  - intros [x [Hx He]]. apply strictEq_eq in He. now subst.
  - intros H. exists key. split; [exact H | now apply strictEq_eq].
Qed.

(** X6. [getColorClasses] with a colour that is no key of the table: the
    blue classes are used, unless the name is one that every object
    inherits (such as "toString"), in which case the inherited member, not
    a class string, comes back.  The four cards of the dashboard use keys
    of the table and get their own classes. *)
Theorem color_classes_fallback (c : jsstring)
    (Hb : c <> lit "blue") (Hr : c <> lit "red") (Hg : c <> lit "green")
    (Hp : c <> lit "purple") :
  (~ In c objectPrototypeNames ->
     getColorClasses c = Str (lit "text-blue-600 bg-blue-50"))
  /\ (In c objectPrototypeNames -> getColorClasses c = Inherited c)
  /\ (forall st, In st stats ->
        exists cls, ownProperty colors (color st) = Some cls
                    /\ getColorClasses (color st) = Str cls
                    /\ includes cls (lit "-" ++ color st ++ lit "-") = true).
Proof.
  unfold getColorClasses, getProperty.
  rewrite (ownProperty_colors_none Hb Hr Hg Hp).
  split; [|split].
  - intros Hn.
    destruct (existsb (strictEq c) objectPrototypeNames) eqn:E.
    + apply existsb_strictEq in E. contradiction.
    + reflexivity.
  - intros Hi. apply existsb_strictEq in Hi. rewrite Hi. reflexivity.
  - intros st Hst. simpl in Hst.
    destruct Hst as [<- | [<- | [<- | [<- | []]]]];
      eexists; (split; [reflexivity | split; reflexivity]).
Qed.

Lemma color_classes_fallback_witness :
  getColorClasses (lit "orange") = Str (lit "text-blue-600 bg-blue-50")
  /\ getColorClasses (lit "toString") = Inherited (lit "toString").
Proof.
  split.
  - apply (@color_classes_fallback (lit "orange")); try discriminate.
    simpl. intros H.
    repeat (destruct H as [H | H]; [discriminate H|]). exact H.
  - apply (@color_classes_fallback (lit "toString")); try discriminate.
    simpl. tauto.
Defined.

End Navigation.

(* ================================================================== *)
(** ** Sessions: what sequences of events lead to *)

Module Session.
Import StringFacts Orchestrator.

Lemma run_cons w e evs : run w (e :: evs) = run (step w e) evs.
Proof. reflexivity. Qed.

Lemma run_app w evs evs' : run w (evs ++ evs') = run (run w evs) evs'.
Proof. unfold run. apply fold_left_app. Qed.

(** While a call is awaited, no event other than its settling touches the
    call, the loading flag, the absent result, the console or the opened
    links. *)
Lemma pending_step w e c :
  inflight w = [c] -> loading (comp w) = true -> results (comp w) = None ->
  notSettle e = true ->
  inflight (step w e) = [c] /\ loading (comp (step w e)) = true
  /\ results (comp (step w e)) = None
  /\ console (step w e) = console w /\ opened (step w e) = opened w.
Proof.
  intros Hq Hl Hr He. destruct e as [t | v | | | o]; simpl in *.
  - auto.
  - auto.
  - unfold verifyDisabled. rewrite Hl, orb_true_r. auto.
  - unfold resultsPane. rewrite Hl. auto.
  - discriminate He.
Qed.

Lemma pending_run evs : forall w c,
  inflight w = [c] -> loading (comp w) = true -> results (comp w) = None ->
  forallb notSettle evs = true ->
  inflight (run w evs) = [c] /\ loading (comp (run w evs)) = true
  /\ results (comp (run w evs)) = None
  /\ console (run w evs) = console w /\ opened (run w evs) = opened w.
Proof.
  induction evs as [|e evs IH]; intros w c Hq Hl Hr Hev.
  - simpl. auto.
  - cbn [forallb] in Hev. apply andb_true_iff in Hev. destruct Hev as [He Hev].
    destruct (pending_step w e Hq Hl Hr He) as [Hq' [Hl' [Hr' [Hc' Ho']]]].
    rewrite run_cons.
    destruct (IH _ _ Hq' Hl' Hr' Hev) as [H1 [H2 [H3 [H4 H5]]]].
    rewrite H4, H5. auto.
Qed.

(** X7. A request answers for the category and the text it was submitted
    with.  Whatever the user does while it is awaited (switching category,
    editing the text, clicking either button), the pane keeps showing the
    spinner and, once the call is fulfilled, the stored result is the one
    built from the category and text captured at the click; nothing is
    logged or opened on the way. *)
Theorem result_answers_submitted_request (w : World) (evs : list Event)
    (g : RandSrc)
    (Henabled : verifyDisabled (comp w) = false)
    (Hidle : inflight w = [])
    (Hevs : forallb notSettle evs = true) :
  resultsPane (comp (run w (ClickVerify :: evs))) = LoadingSpinner
  /\ inflight (run w (ClickVerify :: evs))
     = [(activeTab (comp w), inputValue (comp w))]
  /\ results (comp (run w (ClickVerify :: evs ++ [Settle (Fulfilled g)])))
     = Some (fst (mockResult (activeTab (comp w), inputValue (comp w)) g))
  /\ loading (comp (run w (ClickVerify :: evs ++ [Settle (Fulfilled g)]))) = false
  /\ inflight (run w (ClickVerify :: evs ++ [Settle (Fulfilled g)])) = []
  /\ console (run w (ClickVerify :: evs ++ [Settle (Fulfilled g)])) = console w
  /\ opened (run w (ClickVerify :: evs ++ [Settle (Fulfilled g)])) = opened w.
Proof.
  pose proof Henabled as Hd. unfold verifyDisabled in Hd.
  apply orb_false_iff in Hd. destruct Hd as [Ht Hl].
  apply negb_false_iff in Ht.
  assert (Hstep : step w ClickVerify = handleVerify w)
    by (simpl; now rewrite Henabled).
  set (c := (activeTab (comp w), inputValue (comp w))).
  assert (Hp : inflight (handleVerify w) = [c]
               /\ loading (comp (handleVerify w)) = true
               /\ results (comp (handleVerify w)) = None
               /\ console (handleVerify w) = console w
               /\ opened (handleVerify w) = opened w).
  { rewrite (handleVerify_nonblank _ Ht). simpl. rewrite Hidle. auto. }
  destruct Hp as [Hq [Hl' [Hr [Hc Ho]]]].
  destruct (pending_run evs _ Hq Hl' Hr Hevs) as [H1 [H2 [H3 [H4 H5]]]].
  rewrite !run_cons, Hstep. rewrite run_app.
  split; [unfold resultsPane; now rewrite H2|].
  split; [exact H1|].
  unfold run at 1 3 5 7 9. cbn [fold_left step]. rewrite H1.
  unfold handleVerify_resume. simpl.
  rewrite H4, H5, Hc, Ho. repeat split; reflexivity.
Qed.

Lemma result_answers_submitted_request_witness :
  results (comp (run init
     [ChangeInput (lit "John Smith"); ClickVerify;
      SelectTab social; ChangeInput (lit "Buy XYZ"); ClickVerify; ClickReport;
      Settle (Fulfilled (drawsFor 90 High))]))
  = Some (fst (mockResult (advisor, lit "John Smith") (drawsFor 90 High))).
Proof.
  apply (@result_answers_submitted_request
           (run init [ChangeInput (lit "John Smith")])
           [SelectTab social; ChangeInput (lit "Buy XYZ"); ClickVerify; ClickReport]
           (drawsFor 90 High)); reflexivity.
Defined.

(** X8. Loading never sticks.  In every state the component can reach,
    [loading] is true exactly when a call is awaited, no result is stored
    or shown meanwhile, and the settling of the call (fulfilled or
    rejected) always clears [loading] and leaves nothing in flight. *)
Theorem loading_tracks_the_call (w : World) (o : Outcome)
    (Hreach : reachable w) :
  (loading (comp w) = true <-> inflight w <> [])
  /\ (loading (comp w) = true ->
      results (comp w) = None /\ resultsPane (comp w) = LoadingSpinner)
  /\ loading (comp (step w (Settle o))) = false
  /\ inflight (step w (Settle o)) = []
  /\ (loading (comp w) = false -> step w (Settle o) = w).
Proof.
  pose proof (singleFlight_reachable Hreach) as Hsf.
  pose proof (singleFlight_step (Settle o) Hsf) as Hsf'.
  destruct Hsf as [[Hq Hl] | [c [Hq [Hl Hr]]]].
  - rewrite Hq, Hl. simpl. rewrite Hq.
    repeat split; try congruence; try (intros H; discriminate H); auto.
  - rewrite Hq, Hl, Hr. unfold resultsPane. rewrite Hl.
    split; [split; [discriminate | reflexivity]|].
    split; [auto|].
    simpl. rewrite Hq.
    split; [destruct o; reflexivity|].
    split; [destruct o; reflexivity | discriminate].
Qed.

Lemma loading_tracks_the_call_witness :
  loading (comp (step pendingWorld (Settle (Rejected [])))) = false
  /\ inflight (step pendingWorld (Settle (Rejected []))) = [].
Proof.
  assert (Hr : reachable pendingWorld)
    by (exists [ChangeInput (lit "John Smith"); ClickVerify]; reflexivity).
  destruct (loading_tracks_the_call (Rejected []) Hr) as [_ [_ [Hl [Hq _]]]].
  split; assumption.
Defined.

Lemma mockResult_explanation t v g :
  exists verdict,
    ai_explanation (fst (mockResult (t, v) g))
    = lit "Based on our analysis of " ++ DQUOTE ++ v ++ DQUOTE
      ++ lit ", this appears to be " ++ verdict
      ++ lit " content. Our AI detected several red flags including unregistered entities and promises of guaranteed returns."
    /\ (verdict = lit "suspicious" \/ verdict = lit "potentially legitimate").
Proof.
  cbv beta iota zeta delta [fst ai_explanation mockResult bind Math_random ret].
  destruct (gtb (g 1%nat) (6 # 10)); cbv beta iota zeta delta [fst ai_explanation ret];
    match goal with
    | |- context [if ?b then lit "suspicious" else _] => destruct b
    end;
    eexists; (split; [reflexivity|]); auto.
Qed.

Lemma explanation_quotes_text c g :
  includes (ai_explanation (fst (mockResult c g))) (DQUOTE ++ snd c ++ DQUOTE) = true.
Proof.
  destruct c as [t v]. destruct (mockResult_explanation t v g) as [vd [-> _]].
  cbn [snd]. apply includes_spec.
  eexists (lit "Based on our analysis of "), _.
  rewrite <- !app_assoc. reflexivity.
Qed.

(** X9. When the awaited call is fulfilled, the pane leaves the spinner
    for the results card with the freshly built result: a score from 0 to
    99 (the draws being doubles in [0, 1), the product rounded as binary64
    rounds it), two reasons, and an explanation that quotes the submitted
    text.
    Nothing is logged, the report button works, and the submit button is
    enabled again exactly when the text is not blank. *)
Theorem success_shows_the_card (w : World) (g : RandSrc)
    (Hreach : reachable w) (Hloading : loading (comp w) = true)
    (Hg : doubleDraws g) :
  exists c r,
    inflight w = [c] /\ r = fst (mockResult c g)
    /\ resultsPane (comp (step w (Settle (Fulfilled g)))) = ResultsCardPane r
    /\ (0 <= risk_score r <= 99)%Z
    /\ List.length (reasons r) = 2%nat
    /\ includes (ai_explanation r) (DQUOTE ++ snd c ++ DQUOTE) = true
    /\ console (step w (Settle (Fulfilled g))) = console w
    /\ step (step w (Settle (Fulfilled g))) ClickReport
       = handleReport (step w (Settle (Fulfilled g)))
    /\ verifyDisabled (comp (step w (Settle (Fulfilled g))))
       = negb (truthy (trim (inputValue (comp w)))).
Proof.
  apply singleFlight_reachable in Hreach.
  destruct Hreach as [[_ Hl] | [c [Hq [_ Hr]]]]; [congruence|].
  exists c, (fst (mockResult c g)).
  split; [exact Hq|]. split; [reflexivity|].
  destruct w as [[t l r v] q cons op]; simpl in *. subst q r.
  unfold resultsPane, verifyDisabled; simpl.
  split; [reflexivity|].
  split.
  { rewrite MockResult.mockResult_score.
    apply MockResult.double_score_bounds, Hg. }
  split; [apply MockResult.mockResult_reasons|].
  split; [apply explanation_quotes_text|].
  split; [reflexivity|]. split; [reflexivity|].
  apply orb_false_r.
Qed.

Lemma success_shows_the_card_witness :
  exists c r,
    inflight pendingWorld = [c] /\ r = fst (mockResult c (drawsFor 42 Medium))
    /\ resultsPane (comp (step pendingWorld (Settle (Fulfilled (drawsFor 42 Medium)))))
       = ResultsCardPane r
    /\ (0 <= risk_score r <= 99)%Z.
Proof.
  assert (Hr : reachable pendingWorld)
    by (exists [ChangeInput (lit "John Smith"); ClickVerify]; reflexivity).
  assert (Hl : loading (comp pendingWorld) = true) by reflexivity.
  assert (Hs : (0 <= 42 <= 99)%Z) by lia.
  destruct (success_shows_the_card Hr Hl (MockResult.drawsFor_double Medium Hs))
    as [c [r [Hq [Hres [Hp [Hscore _]]]]]].
  exists c, r.
  split; [exact Hq | split; [exact Hres | split; [exact Hp | exact Hscore]]].
Defined.

Lemma console_step w e :
  console (step w e) = console w
  \/ exists err, e = Settle (Rejected err)
       /\ console (step w e) = console w ++ [(lit "Verification failed:", err)].
Proof.
  destruct e as [t | v | | | o]; simpl.
  - now left.
  - now left.
  - destruct (verifyDisabled (comp w)); [now left|].
    unfold handleVerify.
    destruct (negb (truthy (trim (inputValue (comp w))))); now left.
  - destruct (resultsPane (comp w)); try now left.
    unfold handleReport. destruct (reportUrl (comp w)); now left.
  - destruct (inflight w) as [|c rest]; [now left|].
    destruct o as [g | err]; [now left|].
    right. exists err. split; reflexivity.
Qed.

(** X10. The console holds failure reports and nothing else: every line
    logged in a session is "Verification failed:" with the error, there are
    no more lines than rejected calls, and a session without a rejected
    call logs nothing. *)
Theorem console_holds_only_failures (evs : list Event) :
  Forall (fun line => fst line = lit "Verification failed:")
         (console (run init evs))
  /\ (List.length (console (run init evs))
      <= List.length (filter isRejection evs))%nat
  /\ (forallb (fun e => negb (isRejection e)) evs = true ->
      console (run init evs) = []).
Proof.
  assert (H : Forall (fun line => fst line = lit "Verification failed:")
                     (console (run init evs))
              /\ (List.length (console (run init evs))
                  <= List.length (filter isRejection evs))%nat).
  { induction evs as [|e evs [IH1 IH2]] using rev_ind.
    - split; [constructor | simpl; lia].
    - rewrite run_snoc, filter_app, length_app.
      destruct (console_step (run init evs) e) as [-> | [err [-> ->]]].
      + split; [exact IH1 | lia].
      + split.
        * apply Forall_app. split; [exact IH1|]. now repeat constructor.
        * rewrite length_app. simpl. lia. }
  destruct H as [H1 H2]. split; [exact H1 | split; [exact H2|]].
  intros Hno.
  assert (Hf : filter isRejection evs = []).
  { clear H1 H2. induction evs as [|e evs IH]; [reflexivity|].
    cbn [forallb] in Hno. apply andb_true_iff in Hno. destruct Hno as [He Hno].
    apply negb_true_iff in He. simpl. rewrite He. now apply IH. }
  rewrite Hf in H2. simpl in H2.
  destruct (console (run init evs)); [reflexivity | simpl in H2; lia].
Qed.

Lemma console_holds_only_failures_witness :
  console (run init [ChangeInput (lit "x"); ClickVerify;
                     Settle (Fulfilled (drawsFor 5 Low)); ClickReport]) = [].
Proof.
  apply (proj2 (proj2 (console_holds_only_failures
           [ChangeInput (lit "x"); ClickVerify;
            Settle (Fulfilled (drawsFor 5 Low)); ClickReport]))).
  reflexivity.
Defined.

Lemma not_grown {A} (l : list A) (x : A) : l <> l ++ [x].
Proof.
  intros H. apply (f_equal (@List.length A)) in H.
  rewrite length_app in H. simpl in H. lia.
Qed.

(** X11. The report button does nothing unless a result is displayed, so
    no draft is ever composed without a result; and a report never touches
    the component state, a call in flight or the console, so pressing the
    button again opens the same link again. *)
Theorem report_only_with_result (w : World) :
  (loading (comp w) = true \/ results (comp w) = None ->
   step w ClickReport = w)
  /\ comp (step w ClickReport) = comp w
  /\ inflight (step w ClickReport) = inflight w
  /\ console (step w ClickReport) = console w
  /\ (forall url, opened (step w ClickReport) = opened w ++ [url] ->
      (exists r, results (comp w) = Some r) /\ loading (comp w) = false
      /\ reportUrl (comp w) = Some url
      /\ opened (run w [ClickReport; ClickReport]) = opened w ++ [url; url]).
Proof.
  split.
  { intros [Hl | Hr]; simpl; unfold resultsPane.
    - now rewrite Hl.
    - rewrite Hr. now destruct (loading (comp w)). }
  unfold run; cbn [fold_left step]. unfold resultsPane.
  destruct (loading (comp w)) eqn:Hl.
  { split; [reflexivity|]. split; [reflexivity|]. split; [reflexivity|].
    intros url H. now apply not_grown in H. }
  destruct (results (comp w)) as [r|] eqn:Hr.
  2:{ rewrite Hl, Hr.
      split; [reflexivity|]. split; [reflexivity|]. split; [reflexivity|].
      intros url H. now apply not_grown in H. }
  rewrite handleReport_comp, Hl, Hr, handleReport_inflight.
  unfold handleReport.
  destruct (reportUrl (comp w)) as [u|] eqn:Hu; cbn [comp console opened].
  - rewrite Hu. cbn [opened].
    split; [reflexivity|]. split; [reflexivity|]. split; [reflexivity|].
    intros url H. apply app_inv_head in H. injection H as <-.
    split; [now exists r|]. split; [reflexivity|]. split; [reflexivity|].
    now rewrite <- app_assoc.
  - rewrite Hu.
    split; [reflexivity|]. split; [reflexivity|]. split; [reflexivity|].
    intros url H. now apply not_grown in H.
Qed.

Lemma report_only_with_result_witness :
  step pendingWorld ClickReport = pendingWorld
  /\ step init ClickReport = init.
Proof.
  split.
  - apply (proj1 (report_only_with_result pendingWorld)). left. reflexivity.
  - apply (proj1 (report_only_with_result init)). right. reflexivity.
Defined.

Lemma nonblank_iff (v : jsstring) :
  truthy (trim v) = true
  <-> existsb (fun c => negb (isWhiteSpace c)) v = true.
Proof.
  destruct (truthy (trim v)) eqn:Ht.
  - split; [intros _ | reflexivity].
    destruct (existsb (fun c => negb (isWhiteSpace c)) v) eqn:E; [reflexivity|].
    assert (Hall : forallb isWhiteSpace v = true).
    { apply forallb_forall. intros c Hc.
      rewrite <- Bool.not_true_iff_false in E.
      destruct (isWhiteSpace c) eqn:Hw; [reflexivity|].
      exfalso. apply E. apply existsb_exists. exists c.
      split; [exact Hc | now rewrite Hw]. }
    apply trim_nil_iff in Hall. rewrite Hall in Ht. discriminate Ht.
  - split; [discriminate|]. intros E.
    apply truthy_false_iff, trim_nil_iff in Ht.
    apply existsb_exists in E. destruct E as [c [Hc Hn]].
    rewrite forallb_forall in Ht. rewrite (Ht c Hc) in Hn. discriminate Hn.
Qed.

Lemma white_has_no_ink (a : jsstring) :
  forallb isWhiteSpace a = true ->
  existsb (fun c => negb (isWhiteSpace c)) a = false.
Proof.
  intros H. induction a as [|c a IH]; [reflexivity|].
  cbn [forallb] in H. apply andb_true_iff in H. destruct H as [Hc Ha].
  simpl. rewrite Hc, (IH Ha). reflexivity.
Qed.

(** X12. The submit button is enabled exactly when no request is in
    flight and the text holds at least one character that is not white
    space; white space put around the text makes no difference. *)
Theorem submit_enabled_iff (s : AppState) :
  (verifyDisabled s = false
   <-> loading s = false
       /\ existsb (fun c => negb (isWhiteSpace c)) (inputValue s) = true)
  /\ (forall a b, forallb isWhiteSpace a = true -> forallb isWhiteSpace b = true ->
        verifyDisabled (setInputValue (a ++ inputValue s ++ b) s)
        = verifyDisabled s).
Proof.
  split.
  - unfold verifyDisabled. rewrite orb_false_iff, negb_false_iff, nonblank_iff.
    tauto.
  - intros a b Ha Hb. unfold verifyDisabled. cbn [setInputValue inputValue loading].
    f_equal. f_equal.
    destruct (truthy (trim (inputValue s))) eqn:Ht.
    + apply nonblank_iff. rewrite !existsb_app.
      apply nonblank_iff in Ht. rewrite Ht. apply orb_true_iff. right. reflexivity.
    + destruct (truthy (trim (a ++ inputValue s ++ b))) eqn:Hp; [|reflexivity].
      apply nonblank_iff in Hp. rewrite !existsb_app in Hp.
      rewrite (white_has_no_ink _ Ha), (white_has_no_ink _ Hb) in Hp.
      rewrite orb_false_r in Hp. simpl in Hp.
      apply nonblank_iff in Hp. congruence.
Qed.

Lemma submit_enabled_iff_witness :
  verifyDisabled (setInputValue ([0x20; 0x0A]%N ++ lit "INFY" ++ [0x09]%N)
                    (mkApp anomaly false None (lit "INFY")))
  = verifyDisabled (mkApp anomaly false None (lit "INFY")).
Proof.
  apply (proj2 (submit_enabled_iff (mkApp anomaly false None (lit "INFY")))
           [0x20; 0x0A]%N [0x09]%N); reflexivity.
Defined.

End Session.

(* ================================================================== *)
(** ** trim *)

Module TrimFacts.
Import StringFacts.

Lemma trimStart_split s :
  exists a, s = a ++ trimStart s /\ forallb isWhiteSpace a = true.
Proof.
  induction s as [|c r [a [Ha Hw]]].
  - now exists [].
  - simpl. destruct (isWhiteSpace c) eqn:Hc.
    + exists (c :: a). simpl. rewrite Hc, Hw. split; [now f_equal | reflexivity].
    + now exists [].
Qed.

Lemma trimStart_head s c r :
  trimStart s = c :: r -> isWhiteSpace c = false.
Proof.
  induction s as [|d s IH]; simpl; [discriminate|].
  destruct (isWhiteSpace d) eqn:Hd; [exact IH|].
  intros [= <- _]. exact Hd.
Qed.

Lemma trimStart_fixed c r :
  isWhiteSpace c = false -> trimStart (c :: r) = c :: r.
Proof. intros H. simpl. now rewrite H. Qed.

Lemma trimStart_snoc l c :
  isWhiteSpace c = false -> trimStart (l ++ [c]) = trimStart l ++ [c].
Proof.
  intros Hc. induction l as [|d l IH]; simpl.
  - now rewrite Hc.
  - destruct (isWhiteSpace d); [exact IH | reflexivity].
Qed.

Lemma trimEnd_split s :
  exists b, s = trimEnd s ++ b /\ forallb isWhiteSpace b = true.
Proof.
  unfold trimEnd. destruct (trimStart_split (rev s)) as [a [Ha Hw]].
  exists (rev a). split.
  - rewrite <- rev_app_distr, <- Ha. symmetry. apply rev_involutive.
  - now rewrite forallb_rev.
Qed.

(** [trimEnd] keeps the first character of a text that begins with a
    character other than white space. *)
Lemma trimEnd_keeps_head c r :
  isWhiteSpace c = false -> exists r', trimEnd (c :: r) = c :: r'.
Proof.
  intros Hc. unfold trimEnd. simpl rev.
  rewrite (@trimStart_snoc (rev r) c Hc), rev_app_distr. simpl. now eexists.
Qed.

Lemma trimEnd_last s c r :
  trimEnd s = c :: r -> isWhiteSpace (last (c :: r) c) = false.
Proof.
  unfold trimEnd. intros H.
  destruct (trimStart (rev s)) as [|d t] eqn:E; [discriminate H|].
  apply trimStart_head in E.
  simpl in H. rewrite <- H. now rewrite last_last.
Qed.

Lemma trimEnd_fixed s d :
  isWhiteSpace (last s d) = false -> s <> [] -> trimEnd s = s.
Proof.
  intros Hl Hs. unfold trimEnd.
  destruct (exists_last Hs) as [l [x ->]].
  rewrite last_last in Hl. rewrite rev_unit, (@trimStart_fixed x (rev l) Hl).
  rewrite <- rev_unit. apply rev_involutive.
Qed.

(** X13. [trim] removes white space from both ends and nothing else: the
    text is the trimmed text between two runs of white space, the trimmed
    text neither begins nor ends with white space, and trimming twice is
    trimming once. *)
Theorem trim_strips_only_the_ends (s : jsstring) :
  (exists a b, s = a ++ trim s ++ b
               /\ forallb isWhiteSpace a = true
               /\ forallb isWhiteSpace b = true)
  /\ (forall c r, trim s = c :: r ->
        isWhiteSpace c = false /\ isWhiteSpace (last (c :: r) c) = false)
  /\ trim (trim s) = trim s.
Proof.
  assert (Hends : forall c r, trim s = c :: r ->
            isWhiteSpace c = false /\ isWhiteSpace (last (c :: r) c) = false).
  { intros c r H. split; [|exact (@trimEnd_last (trimStart s) c r H)].
    unfold trim in H.
    destruct (trimStart s) as [|d t] eqn:E; [discriminate H|].
    pose proof (@trimStart_head s d t E) as Hd.
    destruct (@trimEnd_keeps_head d t Hd) as [r' Hr'].
    rewrite Hr' in H. injection H as <- _. exact Hd. }
  split; [|split; [exact Hends|]].
  - destruct (trimStart_split s) as [a [Ha Hwa]].
    destruct (trimEnd_split (trimStart s)) as [b [Hb Hwb]].
    exists a, b. unfold trim. rewrite <- Hb. auto.
  - destruct (trim s) as [|c r] eqn:E; [reflexivity|].
    destruct (Hends c r eq_refl) as [Hc Hl].
    unfold trim. rewrite (@trimStart_fixed c r Hc).
    apply (@trimEnd_fixed (c :: r) c Hl). discriminate.
Qed.

Lemma trim_strips_only_the_ends_witness :
  isWhiteSpace 0x42 = false /\ isWhiteSpace (last (lit "Buy XYZ") 0x42%N) = false.
Proof.
  apply (proj1 (proj2 (trim_strips_only_the_ends
           ([0x20; 0xA0]%N ++ lit "Buy XYZ" ++ [0x0A; 0x3000]%N)))
           0x42%N (lit "uy XYZ")).
  reflexivity.
Defined.

End TrimFacts.

(* ================================================================== *)
(** ** Links opened by the page *)

Module Links.
Import StringFacts Encoding Orchestrator.

Lemma pageRun_snoc w evs e : pageRun w (evs ++ [e]) = pageStep (pageRun w evs) e.
Proof. unfold pageRun. now rewrite fold_left_app. Qed.

Lemma step_opened w e :
  opened (step w e) = opened w
  \/ exists r url, e = ClickReport /\ results (comp w) = Some r
       /\ loading (comp w) = false /\ reportUrl (comp w) = Some url
       /\ opened (step w e) = opened w ++ [url].
Proof.
  destruct e as [t | v | | | o]; simpl.
  - now left.
  - now left.
  - destruct (verifyDisabled (comp w)); [now left|].
    unfold handleVerify.
    destruct (negb (truthy (trim (inputValue (comp w))))); now left.
  - unfold resultsPane.
    destruct (loading (comp w)) eqn:Hl; [now left|].
    destruct (results (comp w)) as [r|] eqn:Hr; [|now left].
    unfold handleReport.
    destruct (reportUrl (comp w)) as [u|] eqn:Hu; [|now left].
    right. exists r, u. repeat split; reflexivity.
  - destruct (inflight w) as [|c rest]; [now left|].
    destruct o; now left.
Qed.

Lemma pageStep_opened w e :
  opened (pageStep w e) = opened w
  \/ (isLinkClick e = true
      /\ exists url, opened (pageStep w e) = opened w ++ [url]
         /\ (url = footerMailUrl \/ url = sebiUrl
             \/ exists r, results (comp w) = Some r /\ reportUrl (comp w) = Some url)).
Proof.
  destruct e as [e | |]; simpl.
  - destruct (step_opened w e) as [H | [r [url [-> [Hr [_ [Hu Ho]]]]]]];
      [now left|].
    right. split; [reflexivity|]. exists url. split; [exact Ho|].
    right. right. now exists r.
  - right. split; [reflexivity|]. exists footerMailUrl. split; [reflexivity|]. now left.
  - destruct (resultsPane (comp w)); try now left.
    right. split; [reflexivity|]. exists sebiUrl. split; [reflexivity|]. right. now left.
Qed.

(** X14. The page opens links to SEBI only.  Every link opened in a session
    is the footer's mailto address, the SEBI web site, or a complaint draft
    for a result that was on display: the same mailto address followed by
    the percent-encoded subject and body.  No link is opened without a
    click on one of the three buttons. *)
Theorem links_go_to_sebi_only (evs : list PageEvent) :
  (forall url, In url (opened (pageRun init evs)) ->
     url = footerMailUrl \/ url = sebiUrl
     \/ exists s r es eb,
          results s = Some r
          /\ encodeURIComponent (reportSubject s) = Some es
          /\ encodeURIComponent (reportBody s) = Some eb
          /\ forallb isUriSafe es = true
          /\ url = footerMailUrl ++ lit "?subject=" ++ es ++ lit "&body=" ++ eb)
  /\ (List.length (opened (pageRun init evs))
      <= List.length (filter isLinkClick evs))%nat.
Proof.
  induction evs as [|e evs [IH1 IH2]] using rev_ind.
  - split; [intros url [] | simpl; lia].
  - rewrite pageRun_snoc, filter_app, length_app.
    destruct (pageStep_opened (pageRun init evs) e)
      as [-> | [Hc [u [-> Hu]]]].
    + split; [exact IH1 | lia].
    + split.
      * intros url Hin. apply in_app_or in Hin.
        destruct Hin as [Hin | [<- | []]]; [now apply IH1|].
        destruct Hu as [-> | [-> | [r [Hr Hurl]]]]; [now left | right; now left|].
        right. right.
        destruct (Report.reportUrl_shape _ Hurl) as [es [eb [Hes [Heb ->]]]].
        exists (comp (pageRun init evs)), r, es, eb.
        split; [exact Hr|]. split; [exact Hes|]. split; [exact Heb|].
        split.
        -- apply encode_safe with (s := reportSubject (comp (pageRun init evs)));
             [apply Report.validString_subject | exact Hes].
        -- unfold mailtoPrefix, footerMailUrl.
           change (lit "mailto:complaints@sebi.gov.in?subject=")
             with (lit "mailto:complaints@sebi.gov.in" ++ lit "?subject=").
           now rewrite <- !app_assoc.
      * rewrite length_app. cbn [filter]. rewrite Hc. simpl. lia.
Qed.

Lemma links_go_to_sebi_only_witness :
  footerMailUrl = footerMailUrl \/ footerMailUrl = sebiUrl
  \/ exists s r es eb,
       results s = Some r
       /\ encodeURIComponent (reportSubject s) = Some es
       /\ encodeURIComponent (reportBody s) = Some eb
       /\ forallb isUriSafe es = true
       /\ footerMailUrl
          = footerMailUrl ++ lit "?subject=" ++ es ++ lit "&body=" ++ eb.
Proof.
  apply (proj1 (links_go_to_sebi_only
                  [AppEvent (ChangeInput (lit "TCS")); ClickVisitSebi;
                   ClickFooterMail])).
  simpl. left. reflexivity.
Defined.

End Links.

(* ================================================================== *)
(** ** The mocked result, field by field *)

Module MockFields.
Import StringFacts.

Lemma gtb_lt a b : gtb a b = true <-> b < a.
Proof.
  unfold gtb. rewrite negb_true_iff.
  destruct (Qle_bool a b) eqn:E.
  - apply Qle_bool_iff in E. split; [discriminate|].
    intros H. exfalso. exact (Qlt_not_le _ _ H E).
  - split; [intros _ | reflexivity].
    apply Qnot_le_lt. intros H. apply Qle_bool_iff in H. congruence.
Qed.

Lemma gtb_le a b : gtb a b = false <-> a <= b.
Proof.
  unfold gtb. rewrite negb_false_iff. apply Qle_bool_iff.
Qed.

Lemma tabReason_inj t t' : tabReason t = tabReason t' -> t = t'.
Proof. destruct t, t'; intros H; try reflexivity; discriminate H. Qed.

Lemma mockResult_reasons_eq t v g :
  reasons (fst (mockResult (t, v) g))
  = [tabReason t; lit "AI analysis flagged potential fraud indicators"].
Proof.
  cbv beta iota zeta delta [fst reasons mockResult bind Math_random ret].
  destruct (gtb (g 1%nat) (6 # 10));
    cbv beta iota zeta delta [fst reasons ret]; destruct t; reflexivity.
Qed.

(** X15. A mocked result records what it was requested for: it has exactly
    two reasons, the first of which is fixed by the category and differs
    from category to category, and its explanation quotes the submitted
    text verbatim (untrimmed) and calls the content either "suspicious" or
    "potentially legitimate". *)
Theorem mock_records_its_request (t : Tab) (v : jsstring) (g : RandSrc) :
  reasons (fst (mockResult (t, v) g))
  = [tabReason t; lit "AI analysis flagged potential fraud indicators"]
  /\ (forall t' v' g',
        nth 0 (reasons (fst (mockResult (t', v') g'))) []
        = nth 0 (reasons (fst (mockResult (t, v) g))) [] -> t' = t)
  /\ (exists verdict,
        ai_explanation (fst (mockResult (t, v) g))
        = lit "Based on our analysis of " ++ DQUOTE ++ v ++ DQUOTE
          ++ lit ", this appears to be " ++ verdict
          ++ lit " content. Our AI detected several red flags including unregistered entities and promises of guaranteed returns."
        /\ (verdict = lit "suspicious" \/ verdict = lit "potentially legitimate")).
Proof.
  split; [apply mockResult_reasons_eq|].
  split; [|apply Session.mockResult_explanation].
  intros t' v' g'. rewrite !mockResult_reasons_eq. simpl.
  apply tabReason_inj.
Qed.

(** X16. The draws are used in the order of the object literal, and the
    second test of the level is only made when the first fails: the level
    is High when the second draw exceeds 0.6, otherwise Medium when the
    third exceeds 0.3, otherwise Low; so a High result consumes three
    draws and any other result four. *)
Theorem level_thresholds_and_draws (c : Closure) (g : RandSrc) :
  (risk_level (fst (mockResult c g)) = High <-> 6 # 10 < g 1%nat)
  /\ (risk_level (fst (mockResult c g)) = Medium
      <-> g 1%nat <= 6 # 10 /\ 3 # 10 < g 2%nat)
  /\ (risk_level (fst (mockResult c g)) = Low
      <-> g 1%nat <= 6 # 10 /\ g 2%nat <= 3 # 10)
  /\ (forall n,
        snd (mockResult c g) n
        = g (n + (if gtb (g 1%nat) (6 # 10) then 3 else 4))%nat).
Proof.
  rewrite MockResult.mockResult_level.
  destruct c as [t v].
  destruct (gtb (g 1%nat) (6 # 10)) eqn:E1.
  - pose proof (proj1 (gtb_lt _ _) E1) as H1.
    split; [tauto|].
    split; [split; [discriminate | intros [H _]; exfalso; exact (Qlt_not_le _ _ H1 H)]|].
    split; [split; [discriminate | intros [H _]; exfalso; exact (Qlt_not_le _ _ H1 H)]|].
    intros n.
    cbv beta iota zeta delta [snd mockResult bind Math_random ret]. rewrite E1.
    cbv beta iota zeta delta [snd ret]. f_equal. lia.
  - pose proof (proj1 (gtb_le _ _) E1) as H1.
    split; [split; [destruct (gtb (g 2%nat) (3 # 10)); discriminate
                   | intros H; exfalso; exact (Qlt_not_le _ _ H H1)]|].
    destruct (gtb (g 2%nat) (3 # 10)) eqn:E2.
    + pose proof (proj1 (gtb_lt _ _) E2) as H2.
      split; [tauto|].
      split; [split; [discriminate | intros [_ H]; exfalso; exact (Qlt_not_le _ _ H2 H)]|].
      intros n.
      cbv beta iota zeta delta [snd mockResult bind Math_random ret]. rewrite E1.
      cbv beta iota zeta delta [snd ret]. f_equal. lia.
    + pose proof (proj1 (gtb_le _ _) E2) as H2.
      split; [split; [discriminate | intros [_ H]; exfalso; exact (Qlt_not_le _ _ H H2)]|].
      split; [tauto|].
      intros n.
      cbv beta iota zeta delta [snd mockResult bind Math_random ret]. rewrite E1.
      cbv beta iota zeta delta [snd ret]. f_equal. lia.
Qed.

Lemma mock_records_its_request_witness :
  social = social.
Proof.
  apply (proj1 (proj2 (mock_records_its_request social (lit "x") (drawsFor 1 Low)))
           social (lit "another text") (drawsFor 77 High)).
  reflexivity.
Defined.

Lemma level_thresholds_and_draws_witness :
  risk_level (fst (mockResult (advisor, []) (drawsFor 10 High))) = High.
Proof.
  apply (proj1 (level_thresholds_and_draws (advisor, []) (drawsFor 10 High))).
  reflexivity.
Defined.

End MockFields.

(* ================================================================== *)
(** ** The encoding loses nothing *)

Module Decoding.
Import StringFacts Encoding.

Lemma lor_C0 x : (x < 32)%N -> N.lor 0xC0 x = (0xC0 + x)%N.
Proof.
  intros Hx. apply N.eqb_eq.
  apply (@below_forall (fun x => N.lor 0xC0 x =? 0xC0 + x)%N 32);
    [vm_compute; reflexivity | exact Hx].
Qed.

Lemma lor_E0 x : (x < 16)%N -> N.lor 0xE0 x = (0xE0 + x)%N.
Proof.
  intros Hx. apply N.eqb_eq.
  apply (@below_forall (fun x => N.lor 0xE0 x =? 0xE0 + x)%N 16);
    [vm_compute; reflexivity | exact Hx].
Qed.

Lemma lor_F0 x : (x < 8)%N -> N.lor 0xF0 x = (0xF0 + x)%N.
Proof.
  intros Hx. apply N.eqb_eq.
  apply (@below_forall (fun x => N.lor 0xF0 x =? 0xF0 + x)%N 8);
    [vm_compute; reflexivity | exact Hx].
Qed.

Lemma lor_80 x : (x < 64)%N -> N.lor 0x80 x = (0x80 + x)%N.
Proof.
  intros Hx. apply N.eqb_eq.
  apply (@below_forall (fun x => N.lor 0x80 x =? 0x80 + x)%N 64);
    [vm_compute; reflexivity | exact Hx].
Qed.

Lemma low6 a : N.land a 0x3F = (a mod 64)%N.
Proof. change 0x3F%N with (N.ones 6). apply N.land_ones. Qed.

Lemma cont_octet a : N.lor 0x80 (N.land a 0x3F) = (0x80 + a mod 64)%N.
Proof.
  rewrite low6. apply lor_80. apply N.mod_upper_bound. discriminate.
Qed.

(** The octets of a code point, in arithmetic form. *)
Lemma utf8_arith cp :
  (cp < 0x110000)%N ->
  utf8 cp =
    (if cp <? 0x80 then [cp]
     else if cp <? 0x800 then [0xC0 + cp / 64; 0x80 + cp mod 64]
     else if cp <? 0x10000 then
       [0xE0 + cp / 4096; 0x80 + (cp / 64) mod 64; 0x80 + cp mod 64]
     else
       [0xF0 + cp / 262144; 0x80 + (cp / 4096) mod 64;
        0x80 + (cp / 64) mod 64; 0x80 + cp mod 64])%N.
Proof.
  intros Hcp. unfold utf8.
  rewrite !cont_octet, !N.shiftr_div_pow2.
  change (2 ^ 6)%N with 64%N. change (2 ^ 12)%N with 4096%N.
  change (2 ^ 18)%N with 262144%N.
  destruct (N.ltb_spec cp 0x80); [reflexivity|].
  destruct (N.ltb_spec cp 0x800).
  { rewrite lor_C0; [reflexivity|]. apply N.Div0.div_lt_upper_bound. lia. }
  destruct (N.ltb_spec cp 0x10000).
  { rewrite lor_E0; [reflexivity|]. apply N.Div0.div_lt_upper_bound. lia. }
  rewrite lor_F0; [reflexivity|]. apply N.Div0.div_lt_upper_bound. lia.
Qed.

Lemma hex_round b :
  (b < 256)%N ->
  exists hi lo,
    hexVal (hexDigit (N.shiftr b 4)) = Some hi
    /\ hexVal (hexDigit (N.land b 0xF)) = Some lo
    /\ (hi * 16 + lo)%N = b.
Proof.
  intros Hb.
  assert (H : match hexVal (hexDigit (N.shiftr b 4)),
                    hexVal (hexDigit (N.land b 0xF)) with
              | Some hi, Some lo => (hi * 16 + lo =? b)%N
              | _, _ => false
              end = true).
  { apply (@below_forall
             (fun b => match hexVal (hexDigit (N.shiftr b 4)),
                             hexVal (hexDigit (N.land b 0xF)) with
                       | Some hi, Some lo => (hi * 16 + lo =? b)%N
                       | _, _ => false
                       end) 256);
      [vm_compute; reflexivity | exact Hb]. }
  destruct (hexVal (hexDigit (N.shiftr b 4))) as [hi|]; [|discriminate H].
  destruct (hexVal (hexDigit (N.land b 0xF))) as [lo|]; [|discriminate H].
  exists hi, lo. apply N.eqb_eq in H. auto.
Qed.

Lemma readOctet_pct b rest :
  (b < 256)%N -> readOctet (pctOctet b ++ rest) = Some (b, rest).
Proof.
  intros Hb. destruct (hex_round Hb) as [hi [lo [Hhi [Hlo Hv]]]].
  unfold pctOctet. cbn [app readOctet]. rewrite N.eqb_refl, Hhi, Hlo, Hv.
  reflexivity.
Qed.

Lemma readCont_octets bs : forall acc rest,
  Forall (fun b => (b < 256)%N) bs ->
  readCont (List.length bs) acc (flat_map pctOctet bs ++ rest)
  = Some (fold_left (fun a b => (a * 64 + (b - 0x80))%N) bs acc, rest).
Proof.
  induction bs as [|b bs IH]; intros acc rest Hbs; [reflexivity|].
  inversion Hbs as [|? ? Hb Hbs']; subst.
  cbn [List.length readCont flat_map fold_left].
  rewrite <- app_assoc, (readOctet_pct _ Hb). now apply IH.
Qed.

(** Reading back the encoded form of one code point. *)
Lemma readCodePoint_pct cp rest :
  (cp < 0x110000)%N ->
  readCodePoint (pctCodePoint cp ++ rest) = Some (cp, rest).
Proof.
  intros Hcp. pose proof (utf8_octets Hcp) as Hoct.
  unfold pctCodePoint, readCodePoint.
  rewrite (utf8_arith Hcp) in *.
  replace (cp / 262144)%N with (cp / 64 / 64 / 64)%N in *
    by (rewrite !N.Div0.div_div; reflexivity).
  replace (cp / 4096)%N with (cp / 64 / 64)%N in *
    by (rewrite !N.Div0.div_div; reflexivity).
  pose proof (N.Div0.div_mod cp 64) as E1.
  pose proof (N.mod_upper_bound cp 64 ltac:(discriminate)) as M1.
  pose proof (N.Div0.div_mod (cp / 64) 64) as E2.
  pose proof (N.mod_upper_bound (cp / 64) 64 ltac:(discriminate)) as M2.
  pose proof (N.Div0.div_mod (cp / 64 / 64) 64) as E3.
  pose proof (N.mod_upper_bound (cp / 64 / 64) 64 ltac:(discriminate)) as M3.
  remember ((cp / 64 / 64) mod 64)%N as r3 eqn:X1. clear X1.
  remember ((cp / 64) mod 64)%N as r2 eqn:X2. clear X2.
  remember (cp mod 64)%N as r1 eqn:X3. clear X3.
  remember (cp / 64 / 64 / 64)%N as q3 eqn:X4. clear X4.
  remember (cp / 64 / 64)%N as q2 eqn:X5. clear X5.
  remember (cp / 64)%N as q1 eqn:X6. clear X6.
  destruct (N.ltb_spec cp 0x80) as [H1 | H1].
  { pose proof (Forall_inv Hoct) as Hb. pose proof (Forall_inv_tail Hoct) as Hc.
    cbn [flat_map]. rewrite <- app_assoc, (readOctet_pct _ Hb). cbv beta iota.
    unfold contCount, leadBits.
    destruct (N.ltb_spec cp 0x80); [reflexivity | lia]. }
  destruct (N.ltb_spec cp 0x800) as [H2 | H2].
  { pose proof (Forall_inv Hoct) as Hb. pose proof (Forall_inv_tail Hoct) as Hc.
    change (flat_map pctOctet ((0xC0 + q1) :: [0x80 + r1]))%N
      with (pctOctet (0xC0 + q1)%N ++ flat_map pctOctet [0x80 + r1]%N).
    rewrite <- app_assoc, (readOctet_pct _ Hb). cbv beta iota.
    assert (Hc1 : contCount (0xC0 + q1) = List.length [0x80 + r1]%N).
    { unfold contCount.
      destruct (N.ltb_spec (0xC0 + q1) 0x80); [lia|].
      destruct (N.ltb_spec (0xC0 + q1) 0xE0); [reflexivity | lia]. }
    rewrite Hc1, (readCont_octets _ _ Hc). cbn [fold_left].
    unfold leadBits.
    destruct (N.ltb_spec (0xC0 + q1) 0x80); [lia|].
    destruct (N.ltb_spec (0xC0 + q1) 0xE0); [|lia].
    f_equal. f_equal. lia. }
  destruct (N.ltb_spec cp 0x10000) as [H3 | H3].
  { pose proof (Forall_inv Hoct) as Hb. pose proof (Forall_inv_tail Hoct) as Hc.
    change (flat_map pctOctet ((0xE0 + q2) :: [0x80 + r2; 0x80 + r1]))%N
      with (pctOctet (0xE0 + q2)%N ++ flat_map pctOctet [0x80 + r2; 0x80 + r1]%N).
    rewrite <- app_assoc, (readOctet_pct _ Hb). cbv beta iota.
    assert (Hc1 : contCount (0xE0 + q2) = List.length [0x80 + r2; 0x80 + r1]%N).
    { unfold contCount.
      destruct (N.ltb_spec (0xE0 + q2) 0x80); [lia|].
      destruct (N.ltb_spec (0xE0 + q2) 0xE0); [lia|].
      destruct (N.ltb_spec (0xE0 + q2) 0xF0); [reflexivity | lia]. }
    rewrite Hc1, (readCont_octets _ _ Hc). cbn [fold_left].
    unfold leadBits.
    destruct (N.ltb_spec (0xE0 + q2) 0x80); [lia|].
    destruct (N.ltb_spec (0xE0 + q2) 0xE0); [lia|].
    destruct (N.ltb_spec (0xE0 + q2) 0xF0); [|lia].
    f_equal. f_equal. lia. }
  pose proof (Forall_inv Hoct) as Hb. pose proof (Forall_inv_tail Hoct) as Hc.
  change (flat_map pctOctet ((0xF0 + q3) :: [0x80 + r3; 0x80 + r2; 0x80 + r1]))%N
    with (pctOctet (0xF0 + q3)%N
          ++ flat_map pctOctet [0x80 + r3; 0x80 + r2; 0x80 + r1]%N).
  rewrite <- app_assoc, (readOctet_pct _ Hb). cbv beta iota.
  assert (Hc1 : contCount (0xF0 + q3)
                = List.length [0x80 + r3; 0x80 + r2; 0x80 + r1]%N).
  { unfold contCount.
    destruct (N.ltb_spec (0xF0 + q3) 0x80); [lia|].
    destruct (N.ltb_spec (0xF0 + q3) 0xE0); [lia|].
    destruct (N.ltb_spec (0xF0 + q3) 0xF0); [lia | reflexivity]. }
  rewrite Hc1, (readCont_octets _ _ Hc). cbn [fold_left].
  unfold leadBits.
  destruct (N.ltb_spec (0xF0 + q3) 0x80); [lia|].
  destruct (N.ltb_spec (0xF0 + q3) 0xE0); [lia|].
  destruct (N.ltb_spec (0xF0 + q3) 0xF0); [lia|].
  f_equal. f_equal. lia.
Qed.

Lemma pct_head cp :
  (cp < 0x110000)%N -> exists t, pctCodePoint cp = 0x25%N :: t.
Proof.
  intros Hcp. unfold pctCodePoint. rewrite (utf8_arith Hcp).
  destruct (cp <? 0x80)%N; [cbn [flat_map pctOctet app]; now eexists|].
  destruct (cp <? 0x800)%N; [cbn [flat_map pctOctet app]; now eexists|].
  destruct (cp <? 0x10000)%N; cbn [flat_map pctOctet app]; now eexists.
Qed.

Lemma decodeFuel_pct cp e f :
  (cp < 0x110000)%N ->
  decodeFuel (S f) (pctCodePoint cp ++ e)
  = option_map (app (utf16 cp)) (decodeFuel f e).
Proof.
  intros Hcp. pose proof (readCodePoint_pct e Hcp) as Hr.
  destruct (pct_head Hcp) as [t Ht]. rewrite Ht in *.
  cbn [app] in *. cbn [decodeFuel]. rewrite N.eqb_refl, Hr. reflexivity.
Qed.

Lemma pct_length cp e f :
  (cp < 0x110000)%N ->
  (List.length (pctCodePoint cp ++ e) <= S f)%nat -> (List.length e <= f)%nat.
Proof.
  intros Hcp. destruct (pct_head Hcp) as [t ->].
  cbn [app List.length]. rewrite length_app. lia.
Qed.

Lemma unreserved_not_pct c : isUnreserved c = true -> (c =? 0x25)%N = false.
Proof.
  intros H. apply N.eqb_neq. intros ->. discriminate H.
Qed.

Lemma utf16_pair c d :
  isLeadSurrogate c = true -> isTrailSurrogate d = true ->
  utf16 ((c - 0xD800) * 0x400 + (d - 0xDC00) + 0x10000)%N = [c; d].
Proof.
  unfold isLeadSurrogate, isTrailSurrogate, utf16. intros Hc Hd.
  to_prop.
  destruct (N.ltb_spec ((c - 0xD800) * 0x400 + (d - 0xDC00) + 0x10000) 0x10000);
    [lia|].
  replace ((c - 0xD800) * 0x400 + (d - 0xDC00) + 0x10000 - 0x10000)%N
    with ((d - 0xDC00) + (c - 0xD800) * 0x400)%N by lia.
  rewrite N.div_add, N.Div0.mod_add by discriminate.
  rewrite N.div_small, N.mod_small by lia.
  f_equal; [lia | f_equal; lia].
Qed.

(** Reading the encoded text back gives the text. *)
Lemma decode_encode s :
  validString s = true ->
  forall e, encodeURIComponent s = Some e ->
  forall fuel, (List.length e <= fuel)%nat -> decodeFuel fuel e = Some s.
Proof.
  enough (H : (validString s = true ->
               forall e, encodeURIComponent s = Some e ->
               forall fuel, (List.length e <= fuel)%nat ->
                            decodeFuel fuel e = Some s)
              /\ forall c, validString (c :: s) = true ->
                   forall e, encodeURIComponent (c :: s) = Some e ->
                   forall fuel, (List.length e <= fuel)%nat ->
                                decodeFuel fuel e = Some (c :: s))
    by exact (proj1 H).
  induction s as [|d r [IH1 IH2]].
  - split.
    + intros _ e [= <-] fuel _. now destruct fuel.
    + intros c Hv e He fuel Hf. rewrite encode_cons in He.
      cbn [validString forallb] in Hv. apply andb_true_iff in Hv.
      destruct Hv as [Hc _]. unfold isCodeUnit in Hc. apply N.ltb_lt in Hc.
      destruct (isUnreserved c) eqn:Hu.
      * injection He as <-. destruct fuel as [|f]; [simpl in Hf; lia|].
        cbn [decodeFuel]. rewrite (unreserved_not_pct _ Hu).
        now destruct f.
      * destruct (isTrailSurrogate c); [discriminate|].
        destruct (isLeadSurrogate c); [discriminate|].
        injection He as <-. destruct fuel as [|f].
        { destruct (@pct_head c) as [t Ht]; [lia|].
          rewrite Ht in Hf. simpl in Hf. lia. }
        rewrite decodeFuel_pct by lia.
        unfold utf16. destruct (N.ltb_spec c 0x10000); [|lia].
        now destruct f.
  - split; [apply IH2|].
    intros c Hv e He fuel Hf. rewrite (encode_cons c) in He.
    cbn [validString forallb] in Hv. apply andb_true_iff in Hv.
    destruct Hv as [Hc Hv]. unfold isCodeUnit in Hc. apply N.ltb_lt in Hc.
    destruct (isUnreserved c) eqn:Hu.
    + apply option_map_Some in He. destruct He as [e' [He' ->]].
      destruct fuel as [|f]; [simpl in Hf; lia|].
      cbn [decodeFuel]. rewrite (unreserved_not_pct _ Hu).
      rewrite (IH2 d Hv e' He' f); [reflexivity|]. simpl in Hf. lia.
    + destruct (isTrailSurrogate c); [discriminate|].
      destruct (isLeadSurrogate c) eqn:Hl.
      * destruct (isTrailSurrogate d) eqn:Ht; [|discriminate].
        apply option_map_Some in He. destruct He as [e' [He' ->]].
        pose proof (pair_code_point _ _ Hl Ht) as Hcp.
        destruct fuel as [|f].
        { destruct (pct_head Hcp) as [t Hh]. rewrite Hh in Hf. simpl in Hf. lia. }
        rewrite (decodeFuel_pct _ _ Hcp), (utf16_pair _ _ Hl Ht).
        cbn [validString forallb] in Hv. apply andb_true_iff in Hv.
        rewrite (IH1 (proj2 Hv) e' He' f); [reflexivity|].
        exact (pct_length _ Hcp Hf).
      * apply option_map_Some in He. destruct He as [e' [He' ->]].
        assert (Hcp : (c < 0x110000)%N) by lia.
        destruct fuel as [|f].
        { destruct (pct_head Hcp) as [t Hh]. rewrite Hh in Hf. simpl in Hf. lia. }
        rewrite (decodeFuel_pct _ _ Hcp).
        rewrite (IH2 d Hv e' He' f); [|exact (pct_length _ Hcp Hf)].
        unfold utf16. destruct (N.ltb_spec c 0x10000); [reflexivity | lia].
Qed.

Lemma encode_plain s :
  forallb isUnreserved s = true -> encodeURIComponent s = Some s.
Proof.
  induction s as [|c r IH]; [reflexivity|].
  cbn [forallb]. intros H. apply andb_true_iff in H. destruct H as [Hc Hr].
  rewrite encode_cons, Hc, (IH Hr). reflexivity.
Qed.

Lemma encode_inj s s' e :
  validString s = true -> validString s' = true ->
  encodeURIComponent s = Some e -> encodeURIComponent s' = Some e -> s = s'.
Proof.
  intros Hv Hv' He He'.
  pose proof (@decode_encode s Hv e He (List.length e) (le_n _)) as Hd.
  pose proof (@decode_encode s' Hv' e He' (List.length e) (le_n _)) as Hd'.
  congruence.
Qed.

(** X17. [encodeURIComponent] is one-to-one: two different texts never
    have the same encoding.  A text made of unreserved characters only is
    left as it is, and every encoding consists of unreserved characters and
    per-cent signs only. *)
Theorem encoding_is_one_to_one (s e : jsstring)
    (Hvalid : validString s = true)
    (Henc : encodeURIComponent s = Some e) :
  (forall s', validString s' = true -> encodeURIComponent s' = Some e ->
              s' = s)
  /\ (forallb isUnreserved s = true -> e = s)
  /\ forallb isUriSafe e = true.
Proof.
  split; [|split].
  - intros s' Hv' He'. exact (@encode_inj s' s e Hv' Hvalid He' Henc).
  - intros Hp. rewrite (encode_plain _ Hp) in Henc. congruence.
  - exact (@encode_safe s Hvalid e Henc).
Qed.

Lemma encoding_is_one_to_one_witness :
  forallb isUriSafe (lit "Buy%20XYZ%20for%20300%25%20returns") = true.
Proof.
  apply (proj2 (proj2 (@encoding_is_one_to_one
                         (lit "Buy XYZ for 300% returns")
                         (lit "Buy%20XYZ%20for%20300%25%20returns")
                         eq_refl eq_refl))).
Defined.

(** X19. Reading an encoded text back, group by group ([%XX] groups as
    UTF-8 octets, other characters as themselves), gives the text that was
    encoded. *)
Theorem encoded_text_reads_back (s e : jsstring)
    (Hvalid : validString s = true)
    (Henc : encodeURIComponent s = Some e) :
  decodeComponent e = Some s.
Proof.
  unfold decodeComponent. now apply (@decode_encode s Hvalid e Henc).
Qed.

Lemma encoded_text_reads_back_witness :
  decodeComponent (lit "300%25%20%E2%82%AC%20%F0%9F%98%80")
  = Some (lit "300% " ++ [0x20AC; 0x20; 0xD83D; 0xDE00]%N).
Proof.
  apply (@encoded_text_reads_back
           (lit "300% " ++ [0x20AC; 0x20; 0xD83D; 0xDE00]%N)
           (lit "300%25%20%E2%82%AC%20%F0%9F%98%80"));
    reflexivity.
Defined.

Lemma safe_not_amp c : isUriSafe c = true -> c <> 0x26%N.
Proof. intros H ->. discriminate H. Qed.

Lemma split_at_amp a : forall a' x x',
  forallb isUriSafe a = true -> forallb isUriSafe a' = true ->
  a ++ 0x26%N :: x = a' ++ 0x26%N :: x' -> a = a' /\ x = x'.
Proof.
  induction a as [|c a IH]; intros [|c' a'] x x' Ha Ha' H; cbn [app] in H.
  - injection H as <-. auto.
  - injection H as Hc _. cbn [forallb] in Ha'. apply andb_true_iff in Ha'.
    exfalso. apply (@safe_not_amp c'); [apply Ha' | congruence].
  - injection H as Hc _. cbn [forallb] in Ha. apply andb_true_iff in Ha.
    exfalso. apply (@safe_not_amp c); [apply Ha | congruence].
  - injection H as <- H.
    cbn [forallb] in Ha, Ha'. apply andb_true_iff in Ha, Ha'.
    destruct (IH a' x x' (proj2 Ha) (proj2 Ha') H) as [-> ->]. auto.
Qed.

Lemma subject_tab s s' : reportSubject s = reportSubject s' -> activeTab s = activeTab s'.
Proof.
  unfold reportSubject. intros H. apply app_inv_head in H.
  destruct (activeTab s), (activeTab s'); try reflexivity; discriminate H.
Qed.

(** X18. The link carries the whole draft: two states with a result whose
    reports open the same link have the same subject, hence the same
    category, and the same body. *)
Theorem link_determines_draft (s1 s2 : AppState) (r1 r2 : VerificationResult)
    (url : jsstring)
    (Hr1 : results s1 = Some r1) (Hr2 : results s2 = Some r2)
    (Hv1 : validString (inputValue s1) = true)
    (Hv2 : validString (inputValue s2) = true)
    (Hs1 : forallb validString (reasons r1) = true)
    (Hs2 : forallb validString (reasons r2) = true)
    (He1 : validString (ai_explanation r1) = true)
    (He2 : validString (ai_explanation r2) = true)
    (Hu1 : reportUrl s1 = Some url) (Hu2 : reportUrl s2 = Some url) :
  reportSubject s1 = reportSubject s2
  /\ activeTab s1 = activeTab s2
  /\ reportBody s1 = reportBody s2.
Proof.
  destruct (Report.reportUrl_shape _ Hu1) as [es1 [eb1 [Hes1 [Heb1 E1]]]].
  destruct (Report.reportUrl_shape _ Hu2) as [es2 [eb2 [Hes2 [Heb2 E2]]]].
  rewrite E1 in E2. apply app_inv_head in E2.
  change (lit "&body=") with (0x26%N :: lit "body=") in E2. cbn [app] in E2.
  assert (Vs1 := Report.validString_subject s1).
  assert (Vs2 := Report.validString_subject s2).
  assert (Vb1 : validString (reportBody s1) = true).
  { rewrite (Report.reportBody_present _ Hr1).
    now apply Report.validString_draftBody. }
  assert (Vb2 : validString (reportBody s2) = true).
  { rewrite (Report.reportBody_present _ Hr2).
    now apply Report.validString_draftBody. }
  assert (Sf1 : forallb isUriSafe es1 = true)
    by (apply encode_safe with (s := reportSubject s1); assumption).
  assert (Sf2 : forallb isUriSafe es2 = true)
    by (apply encode_safe with (s := reportSubject s2); assumption).
  destruct (split_at_amp _ _ _ _ Sf1 Sf2 E2) as [Ees Eeb].
  apply app_inv_head in Eeb. subst es2 eb2.
  assert (Hsub : reportSubject s1 = reportSubject s2)
    by exact (@encode_inj _ _ _ Vs1 Vs2 Hes1 Hes2).
  split; [exact Hsub|]. split; [now apply subject_tab|].
  exact (@encode_inj _ _ _ Vb1 Vb2 Heb1 Heb2).
Qed.

Lemma link_determines_draft_witness :
  reportBody (comp reportWorld) = reportBody (setLoading true (comp reportWorld)).
Proof.
  assert (Hr : results (comp reportWorld)
               = Some (fst (mockResult (social, lit "Buy XYZ for 300% returns")
                                       (drawsFor 90 High))))
    by reflexivity.
  assert (Hu : exists url, reportUrl (comp reportWorld) = Some url)
    by (vm_compute; eexists; reflexivity).
  destruct Hu as [url Hu].
  refine (proj2 (proj2 (@link_determines_draft
            (comp reportWorld) (setLoading true (comp reportWorld))
            _ _ url Hr Hr _ _ _ _ _ _ Hu Hu))); reflexivity.
Defined.

End Decoding.
